(** * DILIrank/fetch.py: name-to-identifier resolution against ChEMBL

    A shallow embedding of [src/DILIrank/fetch.py].  The script reads a list
    of drug names, resolves each one to a ChEMBL identifier (exact
    preferred-name lookup, then a bounded text search, a scoring heuristic
    and a synonym check), fetches structure fields and mechanism rows, and
    accumulates two tables.

    Conventions of the embedding:
    - Python [str] values are [string]s; [lower], [strip], [in], [split]
      and [int] are written out below for ASCII strings, on which they
      agree with Python's. A byte above 127 is taken as neither a letter
      nor white space: letters outside ASCII are not lower-cased and blanks
      outside ASCII are not stripped.
    - A record that the web service returns is a Rocq record whose fields
      hold what [dict.get] returns for the key: [None] stands for a key that
      is absent or null. A flag tells whether the dict has further keys, so
      that the dict without keys, which is false in a condition, is told
      apart.
    - The remote service is a state ([World]) threaded through every call;
      a call can fail, and an iterable it returns can fail while it is
      being consumed.
    - Python exceptions are the [Raise] outcome of a small state and error
      monad; [try]/[except Exception] is [try_except]. *)

From Stdlib Require Import ZArith Ascii String.
From stdpp Require Import base option list sorting gmap strings.

Local Open Scope string_scope.
Local Open Scope Z_scope.

#[local] Set Warnings "-clear-no-such-hyp".

(** ** Python string methods *)

Module Str.

Definition code (c : ascii) : nat := nat_of_ascii c.

(** [str.isspace] on one character: TAB, LF, VT, FF, CR, FS, GS, RS, US
    and the space. *)
Definition isspace (c : ascii) : bool :=
  let n := code c in
  ((9 <=? n)%nat && (n <=? 13)%nat) || ((28 <=? n)%nat && (n <=? 32)%nat).

Definition isupper (c : ascii) : bool :=
  let n := code c in (65 <=? n)%nat && (n <=? 90)%nat.

Definition lower_char (c : ascii) : ascii :=
  if isupper c then ascii_of_nat (code c + 32) else c.

(** [s.lower()] *)
Fixpoint lower (s : string) : string :=
  match s with
  | EmptyString => EmptyString
  | String c s' => String (lower_char c) (lower s')
  end.

(** [s.lstrip()] *)
Fixpoint lstrip (s : string) : string :=
  match s with
  | EmptyString => EmptyString
  | String c s' => if isspace c then lstrip s' else s
  end.

(** [s.rstrip()] *)
Fixpoint rstrip (s : string) : string :=
  match s with
  | EmptyString => EmptyString
  | String c s' =>
      match rstrip s' with
      | EmptyString => if isspace c then EmptyString else String c EmptyString
      | r => String c r
      end
  end.

(** [s.strip()] *)
Definition strip (s : string) : string := rstrip (lstrip s).

(** [s.startswith(p)] *)
Fixpoint startswith (p s : string) : bool :=
  match p, s with
  | EmptyString, _ => true
  | String a p', String b s' => bool_decide (a = b) && startswith p' s'
  | String _ _, EmptyString => false
  end.

(** [sub in s] *)
Fixpoint contains (sub s : string) : bool :=
  startswith sub s ||
  match s with
  | EmptyString => false
  | String _ s' => contains sub s'
  end.

(** The characters of [s] up to the first white space. *)
Fixpoint token (s : string) : string :=
  match s with
  | EmptyString => EmptyString
  | String c s' => if isspace c then EmptyString else String c (token s')
  end.

(** [s.split()[0]]: the first white-space delimited word, [None] where
    Python raises [IndexError] because [s.split()] is empty. *)
Definition split_first (s : string) : option string :=
  match lstrip s with
  | EmptyString => None
  | t => Some (token t)
  end.

(** Some character of [s] is not white space. *)
Fixpoint has_nonspace (s : string) : bool :=
  match s with
  | EmptyString => false
  | String c s' => negb (isspace c) || has_nonspace s'
  end.

Definition isdigit (c : ascii) : bool :=
  let n := code c in (48 <=? n)%nat && (n <=? 57)%nat.

Definition digit (c : ascii) : Z := Z.of_nat (code c - 48).

(** The digits of an integer literal; an underscore may stand between two
    digits. [after_digit] tells whether the previous character was a
    digit. *)
Fixpoint parse_digits (s : string) (acc : Z) (after_digit : bool) : option Z :=
  match s with
  | EmptyString => if after_digit then Some acc else None
  | String c s' =>
      if isdigit c then parse_digits s' (10 * acc + digit c) true
      else if bool_decide (c = "_"%char) then
        if after_digit then parse_digits s' acc false else None
      else None
  end.

(** The blanks [int()] skips around the number in an ASCII string: C's
    [isspace], that is TAB, LF, VT, FF, CR and the space. FS, GS, RS and US
    are blanks for [str.strip] but not here: [int] of such a string
    raises. *)
Definition isspace_c (c : ascii) : bool :=
  let n := code c in
  ((9 <=? n)%nat && (n <=? 13)%nat) || (n =? 32)%nat.

Fixpoint lstrip_c (s : string) : string :=
  match s with
  | EmptyString => EmptyString
  | String c s' => if isspace_c c then lstrip_c s' else s
  end.

Fixpoint rstrip_c (s : string) : string :=
  match s with
  | EmptyString => EmptyString
  | String c s' =>
      match rstrip_c s' with
      | EmptyString => if isspace_c c then EmptyString else String c EmptyString
      | r => String c r
      end
  end.

(** Every character of [s] satisfies [p]. *)
Fixpoint all (p : ascii → bool) (s : string) : bool :=
  match s with
  | EmptyString => true
  | String c s' => p c && all p s'
  end.

(** [int(s)] for a string: surrounding blanks, an optional sign, then
    decimal digits. [None] where Python raises [ValueError]. *)
Definition parse_int (s : string) : option Z :=
  match rstrip_c (lstrip_c s) with
  | String "-"%char d => Z.opp <$> parse_digits d 0 false
  | String "+"%char d => parse_digits d 0 false
  | d => parse_digits d 0 false
  end.

End Str.

(** ** Exceptions and values *)

Inductive exn : Type :=
| ValueError (msg : string)
| TypeError
| IndexError
| TransportError.

Inductive result (A : Type) : Type :=
| Ok (a : A)
| Raise (e : exn).
Arguments Ok {A} a.
Arguments Raise {A} e.

(** A JSON value found under a key that the script passes to [int()]. *)
Inductive pyval : Type :=
| PyNone
| PyInt (z : Z)
| PyFloat (num : Z) (den : positive)
| PyStr (s : string)
| PyOther.

(** [int(v)]: an [int] is itself, a float is truncated towards zero, a
    string is parsed; everything else raises. *)
Definition py_int (v : pyval) : result Z :=
  match v with
  | PyNone => Raise TypeError
  | PyInt z => Ok z
  | PyFloat n d => Ok (Z.quot n (Z.pos d))
  | PyStr s =>
      match Str.parse_int s with
      | Some z => Ok z
      | None => Raise (ValueError "invalid literal for int()")
      end
  | PyOther => Raise TypeError
  end.

(** [x or ''] for an optional string. *)
Definition or_empty (x : option string) : string := default "" x.

(** Truth value of an optional string: [None] and [''] are false. *)
Definition truthy (x : option string) : bool :=
  match x with
  | Some (String _ _) => true
  | _ => false
  end.

(** ** Records of the web service *)

Inductive synonym : Type :=
| SynDict (synonyms molecule_synonym : option string)
| SynOther (str : string).

Record structures : Type := mk_structures {
  canonical_smiles : option string;
  standard_inchi_key : option string
}.

(** [other_keys] tells whether the dict holds a key that the six fields
    do not show: a key the script never reads, or one whose value is
    null. *)
Record molecule : Type := mk_molecule {
  pref_name : option string;
  max_phase : pyval;
  molecule_chembl_id : option string;
  molecule_type : option string;
  molecule_structures : option structures;
  molecule_synonyms : option (list synonym);
  other_keys : bool
}.

(** The truth value of a record in a condition: a dict is false exactly
    when it has no key at all. *)
Definition dict_truthy (c : molecule) : bool :=
  other_keys c
  || bool_decide (is_Some (pref_name c))
  || match max_phase c with PyNone => false | _ => true end
  || bool_decide (is_Some (molecule_chembl_id c))
  || bool_decide (is_Some (molecule_type c))
  || bool_decide (is_Some (molecule_structures c))
  || bool_decide (is_Some (molecule_synonyms c)).

Record mechanism : Type := mk_mechanism {
  m_target_chembl_id : option string;
  m_target_pref_name : option string;
  m_target_organism : option string;
  m_action_type : option string;
  m_mechanism_of_action : option string
}.

(** ** Configuration *)

Definition MAX_HITS : nat := 5.
Definition DEEP_CHECK : nat := 3.

(** ** Ranking: the [score] closure and [sorted(..., reverse=True)] *)

Definition normalize (s : string) : string := Str.strip (Str.lower s).

(** The nested function [score] of [choose_best_candidate]. *)
Definition score (query_name : string) (c : molecule) : Z :=
  let s := 0 in
  let pref := normalize (or_empty (pref_name c)) in
  let q := normalize query_name in
  let s := if bool_decide (pref = q) then s + 200 else s in
  let s := if Str.contains q pref || Str.contains pref q then s + 20 else s in
  let mp := max_phase c in
  let s :=
    match mp with
    | PyNone => s
    | _ => match py_int mp with
           | Ok n => s + n * 5
           | Raise _ => s
           end
    end in
  s.

(** Insertion of [x], which stood before every element of [l], into the
    list [l] sorted by decreasing key: [x] passes only elements whose key
    is strictly greater. *)
Fixpoint insert_desc {A} (key : A → Z) (x : A) (l : list A) : list A :=
  match l with
  | [] => [x]
  | y :: l' => if Z.ltb (key x) (key y) then y :: insert_desc key x l'
               else x :: l
  end.

(** [sorted(l, key=key, reverse=True)]: decreasing keys, equal keys in their
    order of [l]. *)
Fixpoint sorted_reverse {A} (key : A → Z) (l : list A) : list A :=
  match l with
  | [] => []
  | x :: l' => insert_desc key x (sorted_reverse key l')
  end.


(** [max_phase] read as an integer: what [score] adds five times. *)
Definition phase_of (mp : pyval) : Z :=
  match py_int mp with
  | Ok n => n
  | Raise _ => 0
  end.

(** ** State and error monad of the script *)

Definition M (World A : Type) : Type := World → result A * World.

Definition ret {World A} (a : A) : M World A := λ w, (Ok a, w).

Definition raise {World A} (e : exn) : M World A := λ w, (Raise e, w).

Definition bind {World A B} (m : M World A) (k : A → M World B) : M World B :=
  λ w, match m w with
       | (Ok a, w') => k a w'
       | (Raise e, w') => (Raise e, w')
       end.

(** [try: body / except Exception: handler] *)
Definition try_except {World A} (body : M World A) (handler : M World A)
  : M World A :=
  λ w, match body w with
       | (Ok a, w') => (Ok a, w')
       | (Raise _, w') => handler w'
       end.

Global Instance M_ret {World} : MRet (M World) := λ A, ret.
Global Instance M_bind {World} : MBind (M World) := λ A B k m, bind m k.

(** [time.sleep(SLEEP)]: the pause changes no value of the run. *)
Definition sleep {World} : M World unit := ret ().

(** ** The remote service *)

(** What iterating over a query set does: it yields records and then stops,
    or fails with an exception at some point. *)
Inductive iterable (A : Type) : Type :=
| Stop
| Yield (a : A) (rest : iterable A)
| Fail (e : exn).
Arguments Stop {A}.
Arguments Yield {A} a rest.
Arguments Fail {A} e.

(** The records an iterable yields before it stops or fails. *)
Fixpoint yielded {A} (it : iterable A) : list A :=
  match it with
  | Yield a rest => a :: yielded rest
  | _ => []
  end.

(** [molecule_client] and [mechanism_client] of [new_client]. *)
Record Client (World : Type) : Type := mk_client {
  (** [molecule_client.filter(pref_name__iexact=name)] *)
  molecule_filter : string → M World (iterable molecule);
  (** [molecule_client.search(name)] *)
  molecule_search : string → M World (iterable molecule);
  (** [molecule_client.get(chembl_id)] *)
  molecule_get : option string → M World molecule;
  (** [mechanism_client.filter(molecule_chembl_id=chembl_id)] *)
  mechanism_filter : option string → M World (iterable mechanism)
}.
Arguments molecule_filter {World} _ _.
Arguments molecule_search {World} _ _.
Arguments molecule_get {World} _ _.
Arguments mechanism_filter {World} _ _.
Arguments mk_client {World} _ _ _ _.

(** ** Output rows *)

Module Meta.
Record t : Type := mk {
  query_name : string;
  chembl_id : option string;
  smiles : option string;
  inchi_key : option string;
  molecule_type : option string;
  status : string
}.
End Meta.

Module Target.
(** [query_name] is [None] until the main loop sets the key. *)
Record t : Type := mk {
  molecule_chembl_id : option string;
  target_chembl_id : option string;
  target_pref_name : option string;
  target_organism : option string;
  action_type : option string;
  mechanism_of_action : option string;
  query_name : option string
}.

(** [t["query_name"] = name] *)
Definition set_query_name (x : t) (name : string) : t :=
  mk (molecule_chembl_id x) (target_chembl_id x) (target_pref_name x)
     (target_organism x) (action_type x) (mechanism_of_action x) (Some name).
End Target.

Record tables : Type := mk_tables {
  meta_records : list Meta.t;
  target_records : list Target.t
}.

(** ** Helpers *)

Section Helpers.
Context {World : Type} (cl : Client World).

(** The loop [for r in res: return r]: [Some r] when it returns. *)
Definition return_first (res : iterable molecule) : M World (option molecule) :=
  match res with
  | Yield r _ => ret (Some r)
  | Stop => ret None
  | Fail e => raise e
  end.

Definition pref_name_exact (name : string) : M World (option molecule) :=
  returned ← try_except
                (res ← molecule_filter cl name; return_first res)
                (ret None);
  match returned with
  | Some r => ret (Some r)
  | None => ret None
  end.

(** The loop of [limited_text_search] from index [i] on: the list
    [candidates] as the loop leaves it, and the exception that ended the
    loop if one did. *)
Fixpoint search_loop (res : iterable molecule) (i : nat)
    (candidates : list molecule) : list molecule * option exn :=
  match res with
  | Stop => (candidates, None)
  | Fail e => (candidates, Some e)
  | Yield r rest =>
      if (MAX_HITS <=? i)%nat then (candidates, None)
      else search_loop rest (S i) (candidates ++ [r])
  end.

Definition limited_text_search (name : string) : M World (list molecule) :=
  λ w,
    let candidates := [] in
    match molecule_search cl name w with
    | (Ok res, w') => (Ok (search_loop res 0 candidates).1, w')
    | (Raise _, w') => (Ok candidates, w')
    end.

(** [syn.get('synonyms') or syn.get('molecule_synonym') or ""] for a
    dict, [str(syn)] otherwise. *)
Definition synonym_string (syn : synonym) : string :=
  match syn with
  | SynDict a b =>
      if truthy a then or_empty a
      else if truthy b then or_empty b
      else ""
  | SynOther s => s
  end.

(** The set [names] built from a full record. *)
Definition names_of (full : molecule) : gset string :=
  let names : gset string := ∅ in
  let pref := normalize (or_empty (pref_name full)) in
  let names := names ∪ {[pref]} in
  foldl (λ (names : gset string) syn,
           let s := synonym_string syn in
           if bool_decide (s = "") then names
           else names ∪ {[normalize s]})
        names (default [] (molecule_synonyms full)).

(** The loop over [ranked[:DEEP_CHECK]]: [Some chembl_id] when the loop
    returns, [None] when it runs to its end. *)
Fixpoint deep_check (ranked : list molecule) (query_name : string)
    : M World (option (option string)) :=
  match ranked with
  | [] => ret None
  | c :: rest =>
      let chembl_id := molecule_chembl_id c in
      fetched ← try_except
                   (full ← molecule_get cl chembl_id; ret (Some full))
                   (ret None);
      match fetched with
      | None => deep_check rest query_name
      | Some full =>
          let names := names_of full in
          let q := normalize query_name in
          match Str.split_first q with
          | None => raise IndexError
          | Some q_simplified =>
              if bool_decide (q ∈ names) || bool_decide (q_simplified ∈ names)
              then ret (Some chembl_id)
              else sleep;; deep_check rest query_name
          end
      end
  end.

Definition choose_best_candidate (candidates : list molecule)
    (query_name : string) : M World (option string) :=
  match candidates with
  | [] => ret None
  | _ =>
      let ranked := sorted_reverse (score query_name) candidates in
      returned ← deep_check (take DEEP_CHECK ranked) query_name;
      match returned with
      | Some chembl_id => ret chembl_id
      | None =>
          match ranked with
          | c :: _ => ret (molecule_chembl_id c)
          | [] => raise IndexError
          end
      end
  end.

Definition fetch_molecule_data (chembl_id : option string)
    : M World (option string * option string * option string) :=
  fetched ← try_except
               (mol ← molecule_get cl chembl_id; ret (Some mol))
               (ret None);
  match fetched with
  | None => ret (None, None, None)
  | Some mol =>
      let mol_type := molecule_type mol in
      let struct := default (mk_structures None None) (molecule_structures mol) in
      let smiles := canonical_smiles struct in
      let inchi_key := standard_inchi_key struct in
      ret (smiles, inchi_key, mol_type)
  end.

(** The dict [fetch_targets] appends for the mechanism row [m]. *)
Definition target_row (chembl_id : option string) (m : mechanism) : Target.t :=
  Target.mk chembl_id (m_target_chembl_id m) (m_target_pref_name m)
    (m_target_organism m) (m_action_type m) (m_mechanism_of_action m) None.

(** The loop of [fetch_targets]: the list [results] as the loop leaves
    it, and the exception that ended the loop if one did. *)
Fixpoint targets_loop (chembl_id : option string) (mechs : iterable mechanism)
    (results : list Target.t) : list Target.t * option exn :=
  match mechs with
  | Stop => (results, None)
  | Fail e => (results, Some e)
  | Yield m rest =>
      targets_loop chembl_id rest (results ++ [target_row chembl_id m])
  end.

Definition fetch_targets (chembl_id : option string) : M World (list Target.t) :=
  λ w,
    let results := [] in
    match mechanism_filter cl chembl_id w with
    | (Ok mechs, w') => (Ok (targets_loop chembl_id mechs results).1, w')
    | (Raise _, w') => (Ok results, w')
    end.

(** ** Main *)

(** Lines 132-138: the exact lookup, then the text search. *)
Definition find_candidates (name : string) : M World (list molecule) :=
  candidate ← pref_name_exact name;
  sleep;;
  match candidate with
  | Some c => if dict_truthy c then ret [c] else limited_text_search name
  | None => limited_text_search name
  end.

(** [mol_type and mol_type.lower() == "small molecule" and smiles] as a
    truth value. *)
Definition is_small (mol_type smiles : option string) : bool :=
  truthy mol_type
  && bool_decide (Str.lower (or_empty mol_type) = "small molecule")
  && truthy smiles.

Definition append_meta (tb : tables) (m : Meta.t) : tables :=
  mk_tables (meta_records tb ++ [m]) (target_records tb).

Definition append_target (tb : tables) (t : Target.t) : tables :=
  mk_tables (meta_records tb) (target_records tb ++ [t]).

(** One turn of the loop [for name in names] on the two lists. *)
Definition loop_body (name : string) (tb : tables) : M World tables :=
  let name := Str.strip name in
  if bool_decide (name = "") then ret tb
  else
    candidates ← find_candidates name;
    match candidates with
    | [] => ret (append_meta tb (Meta.mk name None None None None "no_hit"))
    | _ =>
        chembl_id ← choose_best_candidate candidates name;
        if negb (truthy chembl_id) then
          ret (append_meta tb (Meta.mk name None None None None "no_candidate"))
        else
          '(smiles, inchi_key, mol_type) ← fetch_molecule_data chembl_id;
          sleep;;
          let status := if is_small mol_type smiles then "ok"
                        else "non_small_or_no_smiles" in
          let tb := append_meta tb
                      (Meta.mk name chembl_id smiles inchi_key mol_type status) in
          if is_small mol_type smiles then
            targets ← fetch_targets chembl_id;
            sleep;;
            ret (foldl (λ tb t, append_target tb (Target.set_query_name t name))
                       tb targets)
          else ret tb
    end.

Fixpoint for_names (names : list string) (tb : tables) : M World tables :=
  match names with
  | [] => ret tb
  | name :: rest => tb' ← loop_body name tb; for_names rest tb'
  end.

(** [Series.dropna()]: the cells that hold a value. *)
Definition dropna (col : list (option string)) : list string :=
  omap id col.

(** [Series.unique()]: the values in their order of first appearance. *)
Fixpoint unique_from (seen : gset string) (l : list string) : list string :=
  match l with
  | [] => []
  | x :: l' => if bool_decide (x ∈ seen) then unique_from seen l'
               else x :: unique_from (seen ∪ {[x]}) l'
  end.

Definition unique (l : list string) : list string := unique_from ∅ l.

(** The script from line 119 on, for the data frame [pd.read_csv] gave:
    its columns by name. The result holds the rows of the two output
    tables. *)
Definition main (df : gmap string (list (option string))) : M World tables :=
  match df !! "Name" with
  | None => raise (ValueError "Input CSV must contain a 'Name' column.")
  | Some col =>
      let names := unique (dropna col) in
      for_names names (mk_tables [] [])
  end.

End Helpers.

(** ** Relations used to state the properties *)

Section Relations.
Context {World : Type} (cl : Client World).

(** The deep check passes over the candidates [cs], taking the service
    from [w] to [w']: for each of them in turn the fetch fails, or the
    names of the fetched record hold neither [q] nor [q1]. *)
Inductive passes_over (q q1 : string) : list molecule → World → World → Prop :=
| passes_nil w : passes_over q q1 [] w w
| passes_failed c cs e w w1 w' :
    molecule_get cl (molecule_chembl_id c) w = (Raise e, w1) →
    passes_over q q1 cs w1 w' →
    passes_over q q1 (c :: cs) w w'
| passes_no_match c cs full w w1 w' :
    molecule_get cl (molecule_chembl_id c) w = (Ok full, w1) →
    q ∉ names_of full → q1 ∉ names_of full →
    passes_over q q1 cs w1 w' →
    passes_over q q1 (c :: cs) w w'.

(** The same client with another text search. *)
Definition with_search (search : string → M World (iterable molecule))
    : Client World :=
  mk_client (molecule_filter cl) search (molecule_get cl) (mechanism_filter cl).

(** The same client with another mechanism query. *)
Definition with_mechanism
    (mechs : option string → M World (iterable mechanism)) : Client World :=
  mk_client (molecule_filter cl) (molecule_search cl) (molecule_get cl) mechs.

End Relations.

(** ** A small fake service

    The world counts the requests made so far. *)

Module Fake.

Definition aspirin : molecule :=
  mk_molecule (Some "ASPIRIN") (PyInt 4) (Some "CHEMBL25")
    (Some "Small molecule")
    (Some (mk_structures (Some "CC(=O)Oc1ccccc1C(=O)O")
                         (Some "BSYNRYMUTXBXSQ-UHFFFAOYSA-N")))
    (Some [SynDict (Some "Acetylsalicylic acid") None;
           SynDict None (Some "Aspirin")])
    true.

(** A record found under another preferred name, with aspirin as a
    synonym. *)
Definition acetylsalicylic : molecule :=
  mk_molecule (Some "Acetylsalicylic acid") (PyStr "4.0") (Some "CHEMBL25")
    (Some "Small molecule")
    (Some (mk_structures (Some "CC(=O)Oc1ccccc1C(=O)O")
                         (Some "BSYNRYMUTXBXSQ-UHFFFAOYSA-N")))
    (Some [SynDict None (Some "aspirin"); SynOther "ASA"])
    true.

Definition ibuprofen : molecule :=
  mk_molecule (Some "IBUPROFEN") (PyInt 4) (Some "CHEMBL521")
    (Some "Small molecule")
    (Some (mk_structures (Some "CC(C)Cc1ccc(C(C)C(=O)O)cc1")
                         (Some "HEFNNWSXXWATRW-UHFFFAOYSA-N")))
    None true.

(** An antibody: no structure. *)
Definition infliximab : molecule :=
  mk_molecule (Some "INFLIXIMAB") (PyInt 4) (Some "CHEMBL1201581")
    (Some "Antibody") None None true.

(** A small molecule whose SMILES is the empty string. *)
Definition hollow : molecule :=
  mk_molecule (Some "HOLLOW") PyNone (Some "CHEMBL9")
    (Some "Small molecule")
    (Some (mk_structures (Some "") None)) None true.

(** A hit that carries no identifier. *)
Definition anonymous : molecule :=
  mk_molecule (Some "NAMELESS") PyNone None None None None true.

(** The dict without keys, [{}]. *)
Definition no_keys : molecule :=
  mk_molecule None PyNone None None None None false.

Definition cox1 : mechanism :=
  mk_mechanism (Some "CHEMBL221") (Some "Cyclooxygenase-1")
    (Some "Homo sapiens") (Some "INHIBITOR") (Some "Cyclooxygenase inhibitor").

Definition cox2 : mechanism :=
  mk_mechanism (Some "CHEMBL230") (Some "Cyclooxygenase-2")
    (Some "Homo sapiens") (Some "INHIBITOR") (Some "Cyclooxygenase inhibitor").

Definition by_pref_name (name : string) : result (iterable molecule) :=
  let n := Str.lower name in
  Ok (if bool_decide (n = "ibuprofen") then Yield ibuprofen Stop
      else if bool_decide (n = "infliximab") then Yield infliximab Stop
      else if bool_decide (n = "hollow") then Yield hollow Stop
      else if bool_decide (n = "nameless") then Yield anonymous Stop
      else if bool_decide (n = "ghost") then Yield no_keys Stop
      else Stop).

(** The text search for "aspirin" loses its connection after the first
    hit. *)
Definition by_text (name : string) : result (iterable molecule) :=
  let n := Str.lower name in
  if bool_decide (n = "aspirin") then
    Ok (Yield acetylsalicylic (Fail TransportError))
  else if bool_decide (n = "many") then
    Ok (Yield ibuprofen (Yield aspirin (Yield infliximab (Yield hollow
          (Yield acetylsalicylic (Yield anonymous (Yield ibuprofen Stop)))))))
  else if bool_decide (n = "ghost") then Ok (Yield ibuprofen Stop)
  else Raise TransportError.

Definition by_id (chembl_id : option string) : result molecule :=
  match chembl_id with
  | Some "CHEMBL25" => Ok aspirin
  | Some "CHEMBL521" => Ok ibuprofen
  | Some "CHEMBL1201581" => Ok infliximab
  | Some "CHEMBL9" => Ok hollow
  | _ => Raise TransportError
  end.

(** The mechanisms of aspirin arrive in two pages; the second page
    fails. *)
Definition mechanisms (chembl_id : option string) : result (iterable mechanism) :=
  match chembl_id with
  | Some "CHEMBL25" => Ok (Yield cox1 (Fail TransportError))
  | Some "CHEMBL521" => Ok (Yield cox1 (Yield cox2 Stop))
  | _ => Ok Stop
  end.

(** A request is answered from the tables above and counted. *)
Definition answer {A B} (table : A → result B) (a : A) : M nat B :=
  λ w, (table a, S w).

Definition client : Client nat :=
  mk_client (answer by_pref_name) (answer by_text) (answer by_id)
    (answer mechanisms).

(** A service that is down: every request fails. *)
Definition down : Client nat :=
  mk_client (answer (λ _, Raise TransportError))
            (answer (λ _, Raise TransportError))
            (answer (λ _, Raise TransportError))
            (answer (λ _, Raise TransportError)).

Definition frame (names : list (option string)) : gmap string (list (option string)) :=
  {[ "Name" := names; "vDILIConcern" := (λ _, Some "vMost-DILI-Concern") <$> names ]}.

End Fake.

(** ** Two services that answer alike *)

Section Alike.
Context {W1 W2 : Type} (R : W1 → W2 → Prop).

(** From related worlds the two computations give the same outcome and
    end in related worlds. *)
Definition alike {A} (m1 : M W1 A) (m2 : M W2 A) : Prop :=
  ∀ w1 w2, R w1 w2 → (m1 w1).1 = (m2 w2).1 ∧ R (m1 w1).2 (m2 w2).2.

(** The two services return the same response to every request. *)
Definition same_responses (cl1 : Client W1) (cl2 : Client W2) : Prop :=
  (∀ name, alike (molecule_filter cl1 name) (molecule_filter cl2 name))
  ∧ (∀ name, alike (molecule_search cl1 name) (molecule_search cl2 name))
  ∧ (∀ chembl_id, alike (molecule_get cl1 chembl_id) (molecule_get cl2 chembl_id))
  ∧ (∀ chembl_id, alike (mechanism_filter cl1 chembl_id)
                        (mechanism_filter cl2 chembl_id)).
End Alike.


(** The four values of the [status] column. *)
Definition statuses : list string :=
  ["ok"; "no_hit"; "no_candidate"; "non_small_or_no_smiles"].

(** ** Counting the requests *)

(** The same request, counted in a second component of the world. *)
Definition counted {World A} (m : M World A) : M (World * nat) A :=
  λ wn, let r := m wn.1 in (r.1, (r.2, S wn.2)).

(** The same client with every request counted. *)
Definition counting {World} (cl : Client World) : Client (World * nat) :=
  mk_client (λ name, counted (molecule_filter cl name))
            (λ name, counted (molecule_search cl name))
            (λ chembl_id, counted (molecule_get cl chembl_id))
            (λ chembl_id, counted (mechanism_filter cl chembl_id)).

(** ** The end of the script: lines 186-196 *)

(** [KeyError(key)] of a column lookup in a data frame. *)
Inductive key_error : Type :=
| KeyError (key : string).

(** The numbers the three [print] calls show. *)
Record summary : Type := mk_summary {
  ok_count : Z;
  skipped : Z;
  meta_rows : Z;
  target_rows : Z
}.

(** Lines 186-196 on the two lists. [pd.DataFrame(meta_records)] has the
    keys of the dicts as columns, and no column at all for the empty list,
    so that [meta_df["status"]] raises [KeyError] then; the two files are
    written before that line. *)
Definition report (tb : tables) : key_error + summary :=
  match meta_records tb with
  | [] => inl (KeyError "status")
  | _ :: _ =>
      let ok_count :=
        Z.of_nat (length (filter (λ m, Meta.status m = "ok") (meta_records tb))) in
      let skipped := Z.of_nat (length (meta_records tb)) - ok_count in
      inr (mk_summary ok_count skipped
             (Z.of_nat (length (meta_records tb)))
             (Z.of_nat (length (target_records tb))))
  end.

(** The whole script: the rows written to the two files, and how the
    summary lines end. *)
Definition script {World} (cl : Client World)
    (df : gmap string (list (option string)))
    : M World (tables * (key_error + summary)) :=
  tb ← main cl df;
  mret (tb, report tb).

(** The shape of a metadata row [m] and of the target rows [g] appended
    right after it. *)
Definition row_and_targets (m : Meta.t) (g : list Target.t) : Prop :=
  (((Meta.status m = "no_hit" ∨ Meta.status m = "no_candidate")
    ∧ Meta.chembl_id m = None ∧ Meta.smiles m = None
    ∧ Meta.inchi_key m = None ∧ Meta.molecule_type m = None ∧ g = [])
   ∨ (Meta.status m = "ok"
      ∧ truthy (Meta.chembl_id m) = true
      ∧ is_small (Meta.molecule_type m) (Meta.smiles m) = true)
   ∨ (Meta.status m = "non_small_or_no_smiles"
      ∧ truthy (Meta.chembl_id m) = true
      ∧ is_small (Meta.molecule_type m) (Meta.smiles m) = false
      ∧ g = []))
  ∧ Forall (λ t, Target.query_name t = Some (Meta.query_name m)
                 ∧ Target.molecule_chembl_id t = Meta.chembl_id m) g.

(** ** Numerals, to state what [int()] reads *)







(** * Properties *)

(** ** Strings *)

Module StrFacts.
Import Str.

Lemma startswith_empty s : startswith "" s = true.
Proof. by destruct s. Qed.

Lemma contains_empty s : contains "" s = true.
Proof. destruct s; simpl; by rewrite ?startswith_empty. Qed.

Lemma startswith_app p s : startswith p s = true ↔ ∃ t, s = p +:+ t.
Proof.
  revert s. induction p as [|a p IH]; intros s; simpl.
  - split; [by exists s | by destruct s].
  - destruct s as [|b s]; simpl.
    + split; [done | by intros [t ?]].
    + rewrite andb_true_iff, bool_decide_eq_true, IH. split.
      * intros [-> [t ->]]. by exists t.
      * intros [t [= -> ->]]. eauto.
Qed.

(** [contains] is Python's [in]: [sub] occurs somewhere in [s]. *)
Lemma contains_spec sub s :
  contains sub s = true ↔ ∃ a b, s = a +:+ sub +:+ b.
Proof.
  induction s as [|c s IH]; simpl.
  - rewrite orb_false_r, startswith_app. split.
    + intros [t ->]. by exists "", t.
    + intros [a [b H]]. destruct a; [by exists b | done].
  - rewrite orb_true_iff, startswith_app, IH. split.
    + intros [[t ->] | [a [b ->]]]; [by exists "", t | by exists (String c a), b].
    + intros [a [b H]]. destruct a as [|c' a]; simpl in H.
      * left. by exists b.
      * right. injection H as -> ->. by exists a, b.
Qed.

Lemma lstrip_nonempty s : lstrip s ≠ "" ↔ has_nonspace s = true.
Proof.
  induction s as [|c s IH]; simpl; [done |].
  destruct (isspace c); simpl; [done |]. by split.
Qed.

Lemma rstrip_nonempty s : rstrip s ≠ "" ↔ has_nonspace s = true.
Proof.
  induction s as [|c s IH]; simpl; [done |].
  destruct (rstrip s) eqn:E.
  - destruct (isspace c); simpl.
    + rewrite <- IH. done.
    + by split.
  - split; [intros _ | done]. rewrite orb_true_iff. right. by apply IH.
Qed.

Lemma has_nonspace_lstrip s : has_nonspace (lstrip s) = has_nonspace s.
Proof.
  induction s as [|c s IH]; simpl; [done |].
  destruct (isspace c) eqn:E; simpl; [done | by rewrite E].
Qed.

Lemma strip_nonempty s : strip s ≠ "" ↔ has_nonspace s = true.
Proof. unfold strip. by rewrite rstrip_nonempty, has_nonspace_lstrip. Qed.

Lemma has_nonspace_rstrip s : has_nonspace (rstrip s) = has_nonspace s.
Proof.
  induction s as [|c s IH]; simpl; [done |].
  destruct (rstrip s) eqn:E.
  - destruct (isspace c) eqn:Ec; simpl; rewrite ?Ec; simpl.
    + by rewrite <- IH.
    + done.
  - simpl in *. by rewrite <- IH.
Qed.

Lemma has_nonspace_strip s : has_nonspace (strip s) = has_nonspace s.
Proof. unfold strip. by rewrite has_nonspace_rstrip, has_nonspace_lstrip. Qed.

Lemma isspace_lower_char c : isspace (lower_char c) = isspace c.
Proof.
  destruct c as [[] [] [] [] [] [] [] []]; reflexivity.
Qed.

Lemma has_nonspace_lower s : has_nonspace (lower s) = has_nonspace s.
Proof.
  induction s as [|c s IH]; simpl; [done |].
  by rewrite isspace_lower_char, IH.
Qed.

Lemma split_first_is_Some s : has_nonspace s = true → is_Some (split_first s).
Proof.
  intros H. apply lstrip_nonempty in H. unfold split_first.
  destruct (lstrip s); [done | eauto].
Qed.

End StrFacts.

(** A name that [strip] leaves non-empty is non-empty after
    [lower().strip()] too, and [split()] of it has a first word. *)
Lemma normalize_nonempty name :
  Str.strip name ≠ "" → normalize (Str.strip name) ≠ "".
Proof.
  unfold normalize. rewrite !StrFacts.strip_nonempty.
  by rewrite StrFacts.has_nonspace_lower, StrFacts.has_nonspace_strip.
Qed.

Lemma normalize_split_first q :
  normalize q ≠ "" → is_Some (Str.split_first (normalize q)).
Proof.
  unfold normalize. intros H. apply StrFacts.split_first_is_Some.
  rewrite StrFacts.has_nonspace_strip. by apply StrFacts.strip_nonempty in H.
Qed.

(** ** Ranking *)

Section Sorting.
Context {A : Type} (key : A → Z).

Lemma insert_desc_perm x l : insert_desc key x l ≡ₚ x :: l.
Proof.
  induction l as [|y l IH]; simpl; [done |].
  destruct (key x <? key y); [|done].
  rewrite IH. apply Permutation_swap.
Qed.

Lemma sorted_reverse_perm l : sorted_reverse key l ≡ₚ l.
Proof.
  induction l as [|x l IH]; simpl; [done |].
  by rewrite insert_desc_perm, IH.
Qed.





End Sorting.

Lemma phase_of_absent : phase_of PyNone = 0.
Proof. reflexivity. Qed.

Lemma phase_of_int z : phase_of (PyInt z) = z.
Proof. reflexivity. Qed.

Lemma phase_of_not_a_number s : Str.parse_int s = None → phase_of (PyStr s) = 0.
Proof. unfold phase_of. simpl. by intros ->. Qed.

Lemma score_eq query_name c :
  let pref := normalize (or_empty (pref_name c)) in
  let q := normalize query_name in
  score query_name c
  = (if bool_decide (pref = q) then 200 else 0)
    + (if Str.contains q pref || Str.contains pref q then 20 else 0)
    + 5 * phase_of (max_phase c).
Proof.
  unfold score, phase_of. simpl.
  destruct (bool_decide _), (_ || _), (max_phase c) as [| z | n d | s |];
    simpl; try destruct (Str.parse_int s); lia.
Qed.

(** *** What [int()] reads *)

Module IntFacts.
Import Str.

Lemma parse_digits_dot a b acc after :
  parse_digits (a +:+ String "."%char b) acc after = None.
Proof.
  revert acc after. induction a as [|c a IH]; intros acc after; simpl; [done |].
  destruct (isdigit c); [apply IH |].
  case_bool_decide; [|done]. destruct after; [apply IH | done].
Qed.

Lemma lstrip_c_dot a b :
  lstrip_c (a +:+ String "."%char b) = lstrip_c a +:+ String "."%char b.
Proof.
  induction a as [|c a IH]; simpl; [done |]. by destruct (isspace_c c).
Qed.

Lemma rstrip_c_dot a b :
  rstrip_c (a +:+ String "."%char b) = a +:+ String "."%char (rstrip_c b).
Proof.
  induction a as [|c a IH]; simpl.
  - by destruct (rstrip_c b).
  - rewrite IH. by destruct a.
Qed.

Lemma parse_int_dot a b : parse_int (a +:+ String "."%char b) = None.
Proof.
  unfold parse_int. rewrite lstrip_c_dot, rstrip_c_dot.
  destruct (lstrip_c a) as [|c a']; simpl; [done |].
  pose proof (parse_digits_dot a' (rstrip_c b) 0 false) as H0.
  pose proof (parse_digits_dot (String c a') (rstrip_c b) 0 false) as H1.
  simpl in H1.
  destruct c as [[] [] [] [] [] [] [] []]; try exact H1; by rewrite H0.
Qed.














End IntFacts.




(** The example of the specification: two records named Aspirin, phases 4
    and 2, both score at least 200; of two records with equal scores the
    first-listed one is ranked first. *)
Example ranking_aspirin :
  let a := mk_molecule (Some "Aspirin") (PyInt 4) (Some "CHEMBL25") None None None true in
  let b := mk_molecule (Some "Aspirin") (PyInt 2) (Some "CHEMBL1") None None None true in
  let b' := mk_molecule (Some " ASPIRIN") (PyInt 2) (Some "CHEMBL2") None None None true in
  map (score "Aspirin") [a; b] = [220 + 20; 220 + 10]
  ∧ sorted_reverse (score "Aspirin") [b; a] = [a; b]
  ∧ sorted_reverse (score "Aspirin") [b; b'; a] = [a; b; b']
  ∧ sorted_reverse (score "Aspirin") [b'; b; a] = [a; b'; b].
Proof. repeat split; reflexivity. Qed.


(** C10 as stated fails for a query of white space only: it is not empty,
    it normalizes to the empty string, and a candidate without preferred
    name then also gets the 200 of the equality test. *)
Lemma blank_query_scores_220 :
  let c := mk_molecule None PyNone (Some "CHEMBL1") None None None true in
  " " ≠ ""
  ∧ normalize (or_empty (pref_name c)) = ""
  ∧ score " " c = 220
  ∧ score " " c ≠ 20 + 5 * phase_of (max_phase c).
Proof. repeat split; done. Qed.

(** C10 (amended). For every candidate whose preferred name is absent,
    [None] or normalizes to the empty string, the containment test holds
    for every query, so the 20 is always added; when the query is not
    empty after normalization the candidate scores exactly 20 plus 5 times
    its integer [max_phase]. *)
Theorem empty_pref_name_scores_20 (query_name : string) (c : molecule) :
  normalize (or_empty (pref_name c)) = "" →
  normalize query_name ≠ "" →
  Str.contains (normalize (or_empty (pref_name c))) (normalize query_name) = true
  ∧ score query_name c = 20 + 5 * phase_of (max_phase c).
Proof.
  intros Hpref Hq. rewrite score_eq. simpl. rewrite Hpref.
  rewrite StrFacts.contains_empty, orb_true_r.
  rewrite bool_decide_eq_false_2 by congruence. done.
Qed.

Lemma empty_pref_name_scores_20_witness :
  let c := mk_molecule None (PyStr "4") (Some "CHEMBL1") None None None true in
  score "Aspirin" c = 20 + 5 * 4.
Proof.
  intros c.
  destruct (empty_pref_name_scores_20 "Aspirin" c) as [_ H];
    [reflexivity | discriminate | exact H].
Defined.

(** ** The helpers that call the service *)

(** Unfolds the operations of the monad. *)
Ltac unfold_M :=
  unfold mbind, M_bind, mret, M_ret, bind, try_except, ret, raise, sleep in *.

Lemma search_loop_take (res : iterable molecule) i candidates :
  (search_loop res i candidates).1
  = (candidates ++ take (MAX_HITS - i) (yielded res))%list.
Proof.
  revert i candidates.
  induction res as [|r rest IH|e]; intros i candidates; cbn [search_loop yielded].
  - by rewrite take_nil, app_nil_r.
  - destruct (Nat.leb_spec MAX_HITS i) as [Hle|Hlt]; cbn [fst].
    + replace (MAX_HITS - i)%nat with 0%nat by lia. by rewrite take_0, app_nil_r.
    + rewrite IH. replace (MAX_HITS - i)%nat with (S (MAX_HITS - S i)) by lia.
      rewrite firstn_cons. by rewrite <- app_assoc.
  - by rewrite take_nil, app_nil_r.
Qed.

Section Calls.
Context {World : Type} (cl : Client World).

Lemma pref_name_exact_eq name w :
  pref_name_exact cl name w
  = match molecule_filter cl name w with
    | (Ok res, w') => (Ok (head (yielded res)), w')
    | (Raise _, w') => (Ok None, w')
    end.
Proof.
  unfold pref_name_exact, return_first. unfold_M.
  destruct (molecule_filter cl name w) as [[[|r rest|e]|e] w']; reflexivity.
Qed.

Lemma limited_text_search_eq name w :
  limited_text_search cl name w
  = match molecule_search cl name w with
    | (Ok res, w') => (Ok (take MAX_HITS (yielded res)), w')
    | (Raise _, w') => (Ok [], w')
    end.
Proof.
  unfold limited_text_search.
  destruct (molecule_search cl name w) as [[res|e] w']; [|done].
  by rewrite search_loop_take, Nat.sub_0_r.
Qed.

Lemma dict_truthy_false (r : molecule) :
  dict_truthy r = false ↔ r = mk_molecule None PyNone None None None None false.
Proof.
  split; [|by intros ->].
  destruct r as [p mp i t st sy o]. unfold dict_truthy. simpl.
  destruct o, p, mp, i, t, st, sy; simpl; try done.
Qed.

(** C6 (amended). The exact lookup never raises and returns at most one
    record: the first one the query yields, [None] when the query or its
    iteration fails or yields nothing. When it returns a record that has
    at least one key, the candidates are that record alone, whatever the
    text search of the client would do: the search is not called. When it
    returns nothing or the record without keys, which is false in the
    condition of line 135, the candidates are those of the text search. *)
Theorem exact_match_short_circuits_search (name : string) (w : World) :
  pref_name_exact cl name w
  = match molecule_filter cl name w with
    | (Ok res, w') => (Ok (head (yielded res)), w')
    | (Raise _, w') => (Ok None, w')
    end
  ∧ (∃ found w', pref_name_exact cl name w = (Ok found, w'))
  ∧ (∀ r w',
       pref_name_exact cl name w = (Ok (Some r), w') →
       dict_truthy r = true →
       ∀ search, find_candidates (with_search cl search) name w = (Ok [r], w'))
  ∧ (∀ found w',
       pref_name_exact cl name w = (Ok found, w') →
       found = None ∨ (∃ r, found = Some r ∧ dict_truthy r = false) →
       find_candidates cl name w = limited_text_search cl name w')
  ∧ (∀ r, dict_truthy r = false
          ↔ r = mk_molecule None PyNone None None None None false).
Proof.
  split; [apply pref_name_exact_eq |]. split; [|split; [|split]].
  - rewrite pref_name_exact_eq.
    destruct (molecule_filter cl name w) as [[res|e] w']; eauto.
  - intros r w' H Hr search. unfold find_candidates. unfold_M.
    assert (pref_name_exact (with_search cl search) name w
            = pref_name_exact cl name w) as -> by done.
    by rewrite H, Hr.
  - intros found w' H Hfound. unfold find_candidates. unfold_M. rewrite H.
    destruct Hfound as [-> | (r & -> & Hr)]; [done | by rewrite Hr].
  - apply dict_truthy_false.
Qed.

(** C7 (amended). The text search never raises. It returns the first
    [MAX_HITS] records the search yielded before it stopped or failed:
    none when the call itself fails or the iteration fails before its
    first record, and the records received so far when it fails later. *)
Theorem text_search_bounded_and_swallows (name : string) (w : World) :
  ∃ candidates w',
    limited_text_search cl name w = (Ok candidates, w')
    ∧ (length candidates ≤ MAX_HITS)%nat
    ∧ match molecule_search cl name w with
      | (Ok res, w1) =>
          candidates = take MAX_HITS (yielded res) ∧ w' = w1
          ∧ ∀ e, res = Fail e → candidates = []
      | (Raise _, w1) => candidates = [] ∧ w' = w1
      end.
Proof.
  rewrite limited_text_search_eq.
  destruct (molecule_search cl name w) as [[res|e] w1].
  - eexists _, _. split; [done |]. split.
    + rewrite length_take. lia.
    + repeat split. by intros e ->.
  - eexists _, _. split; [done |]. split; [simpl; lia | done].
Qed.

End Calls.

Lemma exact_match_short_circuits_search_witness :
  find_candidates (with_search Fake.client (λ _ w, (Raise TransportError, (w + 100)%nat)))
    "Ibuprofen" 0%nat
  = (Ok [Fake.ibuprofen], 1%nat).
Proof.
  destruct (exact_match_short_circuits_search Fake.client "Ibuprofen" 0%nat)
    as (_ & _ & H & _).
  apply H; reflexivity.
Defined.

(** C6 as stated fails when the exact lookup returns the record without
    keys: the record is false in the condition of line 135, the text
    search is called (two requests are made) and the candidates are those
    of the search. *)
Lemma empty_record_runs_the_search :
  pref_name_exact Fake.client "ghost" 0%nat = (Ok (Some Fake.no_keys), 1%nat)
  ∧ find_candidates Fake.client "ghost" 0%nat = (Ok [Fake.ibuprofen], 2%nat)
  ∧ [Fake.ibuprofen] ≠ [Fake.no_keys].
Proof. repeat split; done. Qed.

Lemma text_search_bounded_and_swallows_witness :
  ∃ candidates w',
    limited_text_search Fake.client "many" 0%nat = (Ok candidates, w')
    ∧ (length candidates ≤ MAX_HITS)%nat.
Proof.
  destruct (text_search_bounded_and_swallows Fake.client "many" 0%nat)
    as (candidates & w' & H & Hlen & _).
  exists candidates, w'. split; [exact H | exact Hlen].
Defined.

(** C7 as stated fails when the search fails after its first hit: the
    failure is swallowed, and the hit received before it is returned. *)
Lemma text_search_keeps_partial_results :
  molecule_search Fake.client "aspirin" 0%nat
  = (Ok (Yield Fake.acetylsalicylic (Fail TransportError)), 1%nat)
  ∧ limited_text_search Fake.client "aspirin" 0%nat
    = (Ok [Fake.acetylsalicylic], 1%nat)
  ∧ [Fake.acetylsalicylic] ≠ [].
Proof. repeat split; done. Qed.

Example text_search_first_five :
  ∃ l, limited_text_search Fake.client "many" 0%nat = (Ok l, 1%nat)
       ∧ length l = 5%nat.
Proof. eexists. split; reflexivity. Qed.

(** ** Deep verification *)

Lemma names_fold_spec (l : list synonym) (init : gset string) x :
  x ∈ foldl (λ (names : gset string) syn,
               let s := synonym_string syn in
               if bool_decide (s = "") then names
               else names ∪ {[normalize s]}) init l
  ↔ x ∈ init ∨ ∃ syn, syn ∈ l ∧ synonym_string syn ≠ ""
                       ∧ x = normalize (synonym_string syn).
Proof.
  revert init. induction l as [|syn l IH]; intros init; simpl.
  - split; [by left | intros [? | (syn & H & _)]; [done | by apply elem_of_nil in H]].
  - rewrite IH. case_bool_decide as Hs.
    + split.
      * intros [? | (s & ? & ? & ?)]; [by left |]. right. exists s. by rewrite elem_of_cons; eauto.
      * intros [? | (s & [-> | ?]%elem_of_cons & ? & ?)]; [by left | done |].
        right. by exists s.
    + rewrite elem_of_union, elem_of_singleton. split.
      * intros [[? | ->] | (s & ? & ? & ?)]; [by left | |].
        -- right. exists syn. by rewrite elem_of_cons; eauto.
        -- right. exists s. by rewrite elem_of_cons; eauto.
      * intros [? | (s & [-> | ?]%elem_of_cons & ? & ->)]; [by left; left | by left; right |].
        right. by exists s.
Qed.

(** The set [names]: the normalized preferred name and the normalized,
    non-empty synonym strings. *)
Lemma names_of_spec (full : molecule) x :
  x ∈ names_of full
  ↔ x = normalize (or_empty (pref_name full))
    ∨ ∃ syn, syn ∈ default [] (molecule_synonyms full)
             ∧ synonym_string syn ≠ ""
             ∧ x = normalize (synonym_string syn).
Proof.
  unfold names_of. rewrite names_fold_spec.
  rewrite elem_of_union, elem_of_singleton, elem_of_empty. tauto.
Qed.

(** [split()[0]]: the first word of a string. *)
Lemma lstrip_split s :
  ∃ pre, s = pre +:+ Str.lstrip s ∧ Str.all Str.isspace pre = true.
Proof.
  induction s as [|c s (pre & IH & Hpre)]; simpl; [by exists "" |].
  destruct (Str.isspace c) eqn:Hc.
  - exists (String c pre). split; [|simpl; by rewrite Hc].
    change (String c pre +:+ Str.lstrip s) with (String c (pre +:+ Str.lstrip s)).
    by rewrite <- IH.
  - by exists "".
Qed.

Lemma token_split s :
  ∃ rest,
    s = Str.token s +:+ rest
    ∧ Str.all (λ c, negb (Str.isspace c)) (Str.token s) = true
    ∧ (rest = "" ∨ ∃ c r, rest = String c r ∧ Str.isspace c = true).
Proof.
  induction s as [|c s (rest & IH & Hall & Hrest)]; simpl; [exists ""; by auto |].
  destruct (Str.isspace c) eqn:Hc.
  - exists (String c s). split; [done |]. split; [done |]. right. by exists c, s.
  - exists rest. split; [|split; [simpl; by rewrite Hc | done]].
    change (String c (Str.token s) +:+ rest) with (String c (Str.token s +:+ rest)).
    by rewrite <- IH.
Qed.

Lemma split_first_spec s t :
  Str.split_first s = Some t →
  ∃ pre rest,
    s = pre +:+ t +:+ rest
    ∧ Str.all Str.isspace pre = true
    ∧ t ≠ ""
    ∧ Str.all (λ c, negb (Str.isspace c)) t = true
    ∧ (rest = "" ∨ ∃ c r, rest = String c r ∧ Str.isspace c = true).
Proof.
  unfold Str.split_first. intros H.
  destruct (lstrip_split s) as (pre & Hs & Hpre).
  assert (Str.lstrip (Str.lstrip s) = Str.lstrip s) as Hfix.
  { clear. induction s as [|d s IH]; simpl; [done |].
    destruct (Str.isspace d) eqn:Hd; [done |]. simpl. by rewrite Hd. }
  destruct (Str.lstrip s) as [|c u] eqn:E; [done |]. injection H as <-.
  assert (Str.isspace c = false) as Hc.
  { simpl in Hfix. destruct (Str.isspace c); [|done]. exfalso.
    assert (String.length (Str.lstrip u) ≤ String.length u)%nat as Hlen.
    { clear. induction u as [|d u IH]; simpl; [lia |].
      destruct (Str.isspace d); simpl; lia. }
    rewrite Hfix in Hlen. simpl in Hlen. lia. }
  destruct (token_split (String c u)) as (rest & Hu & Hall & Hrest).
  exists pre, rest. split; [etrans; [exact Hs |]; f_equal; exact Hu |].
  split; [done |]. split; [simpl; by rewrite Hc |]. done.
Qed.

(** The string that a synonym entry contributes. *)
Lemma synonym_string_spec :
  (∀ s b, s ≠ "" → synonym_string (SynDict (Some s) b) = s)
  ∧ (∀ a s, truthy a = false → s ≠ "" → synonym_string (SynDict a (Some s)) = s)
  ∧ (∀ a b, truthy a = false → truthy b = false → synonym_string (SynDict a b) = "")
  ∧ (∀ s, synonym_string (SynOther s) = s).
Proof.
  split; [|split; [|split]]; try done.
  - intros s b Hs. simpl. by destruct s.
  - intros a s Ha Hs. simpl. rewrite Ha. by destruct s.
  - intros a b Ha Hb. simpl. by rewrite Ha, Hb.
Qed.

Section Deep.
Context {World : Type} (cl : Client World).

Lemma deep_check_spec (cs : list molecule) query_name q1 w :
  Str.split_first (normalize query_name) = Some q1 →
  (∃ pre c post full w1 w',
      cs = (pre ++ c :: post)%list
      ∧ passes_over cl (normalize query_name) q1 pre w w1
      ∧ molecule_get cl (molecule_chembl_id c) w1 = (Ok full, w')
      ∧ (normalize query_name ∈ names_of full ∨ q1 ∈ names_of full)
      ∧ deep_check cl cs query_name w = (Ok (Some (molecule_chembl_id c)), w'))
  ∨ (∃ w', passes_over cl (normalize query_name) q1 cs w w'
           ∧ deep_check cl cs query_name w = (Ok None, w')).
Proof.
  intros Hq1. revert w. induction cs as [|c cs IH]; intros w.
  - right. exists w. split; [constructor | done].
  - cbn [deep_check]. unfold_M.
    destruct (molecule_get cl (molecule_chembl_id c) w) as [[full|e] w1] eqn:Hget.
    + rewrite Hq1.
      destruct (bool_decide (normalize query_name ∈ names_of full)
                || bool_decide (q1 ∈ names_of full)) eqn:Hin.
      * left. exists [], c, cs, full, w, w1.
        split; [done |]. split; [constructor |]. split; [done |]. split; [|done].
        apply orb_true_iff in Hin as [H|H]; apply bool_decide_eq_true in H; eauto.
      * apply orb_false_iff in Hin as [H1 H2].
        apply bool_decide_eq_false in H1, H2.
        destruct (IH w1) as [(pre & c' & post & full' & w2 & w' & -> & Hp & Hg & Hm & Hd)
                            | (w' & Hp & Hd)].
        -- left. exists (c :: pre), c', post, full', w2, w'.
           split; [done |]. split; [by eapply passes_no_match |]. done.
        -- right. exists w'. split; [by eapply passes_no_match | done].
    + destruct (IH w1) as [(pre & c' & post & full' & w2 & w' & -> & Hp & Hg & Hm & Hd)
                          | (w' & Hp & Hd)].
      * left. exists (c :: pre), c', post, full', w2, w'.
        split; [done |]. split; [by eapply passes_failed |]. done.
      * right. exists w'. split; [by eapply passes_failed | done].
Qed.

(** C5 (amended). For a non-empty candidate list and a query that is not
    blank, [choose_best_candidate] returns an identifier. It examines the
    first [DEEP_CHECK] ranked candidates, three of them, in rank order.
    Either one of them is accepted: every candidate before it was passed over (its fetch
    failed or its names matched neither the normalized query nor the first
    word of it), its own record was fetched, the names of that record (the
    normalized preferred name and the normalized non-empty synonyms)
    contain the normalized query or its first word, and its identifier is
    returned. Or all examined candidates were passed over and the
    identifier of the top-ranked candidate is returned; this is the case
    in particular when every fetch fails. The first word [q1] is the
    longest piece of the query without white space that follows its
    leading white space. The string of a synonym entry is its [synonyms]
    field, or else its [molecule_synonym] field, when not empty, and the
    entry itself when it is not a dict. *)
Theorem deep_verification_first_match_or_top (candidates : list molecule)
    (query_name : string) (w : World) :
  candidates ≠ [] →
  normalize query_name ≠ "" →
  let q := normalize query_name in
  let ranked := sorted_reverse (score query_name) candidates in
  let examined := take DEEP_CHECK ranked in
  ∃ q1 top,
    Str.split_first q = Some q1
    ∧ head ranked = Some top
    ∧ (length examined ≤ DEEP_CHECK)%nat
    ∧ ((∃ pre c post full w1 w',
          examined = (pre ++ c :: post)%list
          ∧ passes_over cl q q1 pre w w1
          ∧ molecule_get cl (molecule_chembl_id c) w1 = (Ok full, w')
          ∧ (q ∈ names_of full ∨ q1 ∈ names_of full)
          ∧ choose_best_candidate cl candidates query_name w
            = (Ok (molecule_chembl_id c), w'))
       ∨ (∃ w', passes_over cl q q1 examined w w'
                ∧ choose_best_candidate cl candidates query_name w
                  = (Ok (molecule_chembl_id top), w')))
    ∧ ((∀ chembl_id w0, ∃ e w1, molecule_get cl chembl_id w0 = (Raise e, w1)) →
       ∃ w', choose_best_candidate cl candidates query_name w
             = (Ok (molecule_chembl_id top), w'))
    ∧ (∀ full x,
         x ∈ names_of full
         ↔ x = normalize (or_empty (pref_name full))
           ∨ ∃ syn, syn ∈ default [] (molecule_synonyms full)
                    ∧ synonym_string syn ≠ ""
                    ∧ x = normalize (synonym_string syn))
    ∧ (∃ pre rest,
         q = pre +:+ q1 +:+ rest
         ∧ Str.all Str.isspace pre = true
         ∧ q1 ≠ ""
         ∧ Str.all (λ c, negb (Str.isspace c)) q1 = true
         ∧ (rest = "" ∨ ∃ c r, rest = String c r ∧ Str.isspace c = true))
    ∧ (∀ s b, s ≠ "" → synonym_string (SynDict (Some s) b) = s)
    ∧ (∀ a s, truthy a = false → s ≠ "" →
              synonym_string (SynDict a (Some s)) = s)
    ∧ (∀ a b, truthy a = false → truthy b = false →
              synonym_string (SynDict a b) = "")
    ∧ (∀ s, synonym_string (SynOther s) = s)
    ∧ DEEP_CHECK = 3%nat.
Proof.
  intros Hne Hq q ranked examined.
  destruct (normalize_split_first _ Hq) as [q1 Hq1].
  assert (∃ top rest, ranked = top :: rest) as (top & rest & Hranked).
  { destruct ranked as [|top rest] eqn:E; [|eauto].
    pose proof (sorted_reverse_perm (score query_name) candidates) as Hp.
    fold ranked in Hp. rewrite E in Hp.
    apply Permutation_nil_l in Hp. by subst. }
  assert (choose_best_candidate cl candidates query_name w
          = match deep_check cl examined query_name w with
            | (Ok (Some chembl_id), w') => (Ok chembl_id, w')
            | (Ok None, w') => (Ok (molecule_chembl_id top), w')
            | (Raise e, w') => (Raise e, w')
            end) as Hchoose.
  { unfold choose_best_candidate. destruct candidates as [|c0 cs0]; [done |].
    fold ranked. fold examined. unfold_M.
    destruct (deep_check cl examined query_name w) as [[[id|]|e] w']; try done.
    by rewrite Hranked. }
  pose proof (deep_check_spec examined query_name q1 w Hq1) as Hdeep.
  exists q1, top. split; [done |]. split; [by rewrite Hranked |].
  split; [unfold examined; rewrite length_take; lia |].
  split; [|split; [|split; [apply names_of_spec |]]].
  3: { split; [by apply split_first_spec |].
       destruct synonym_string_spec as (? & ? & ? & ?). done. }
  - destruct Hdeep as [(pre & c & post & full & w1 & w' & He & Hp & Hg & Hm & Hd)
                      | (w' & Hp & Hd)].
    + left. exists pre, c, post, full, w1, w'. rewrite Hchoose, Hd. done.
    + right. exists w'. by rewrite Hchoose, Hd.
  - intros Hdown.
    destruct Hdeep as [(pre & c & post & full & w1 & w' & He & Hp & Hg & Hm & Hd)
                      | (w' & Hp & Hd)].
    + destruct (Hdown (molecule_chembl_id c) w1) as (e & w2 & Hr). congruence.
    + exists w'. by rewrite Hchoose, Hd.
Qed.

End Deep.

Lemma deep_verification_first_match_or_top_witness :
  ∃ c full w1 w',
    c ∈ [Fake.acetylsalicylic]
    ∧ molecule_get Fake.client (molecule_chembl_id c) w1 = (Ok full, w')
    ∧ (normalize "Aspirin tablets" ∈ names_of full ∨ "aspirin" ∈ names_of full)
    ∧ choose_best_candidate Fake.client [Fake.acetylsalicylic] "Aspirin tablets" 0%nat
      = (Ok (molecule_chembl_id c), w').
Proof.
  destruct (deep_verification_first_match_or_top Fake.client
              [Fake.acetylsalicylic] "Aspirin tablets" 0%nat)
    as (q1 & top & Hq1 & _ & _ & [Hmatch | Hnone] & _); [done | done | |].
  - destruct Hmatch as (pre & c & post & full & w1 & w' & He & _ & Hget & Hin & Hc).
    vm_compute in Hq1. injection Hq1 as <-.
    exists c, full, w1, w'. split.
    { change (take DEEP_CHECK
                (sorted_reverse (score "Aspirin tablets") [Fake.acetylsalicylic]))
        with [Fake.acetylsalicylic] in He.
      rewrite He. apply elem_of_app. right. left. }
    split; [exact Hget |]. split; [exact Hin | exact Hc].
  - exfalso. destruct Hnone as (w' & Hp & _).
    vm_compute in Hq1. injection Hq1 as <-.
    change (take DEEP_CHECK
              (sorted_reverse (score "Aspirin tablets") [Fake.acetylsalicylic]))
      with [Fake.acetylsalicylic] in Hp.
    inversion Hp as [| c cs e w0 w1 w2 Hget _ | c cs full w0 w1 w2 Hget Hq Hq1 _];
      subst.
    + vm_compute in Hget. discriminate.
    + vm_compute in Hget. injection Hget as <- <-.
      apply Hq1. apply (proj1 (bool_decide_eq_true _)). vm_compute. reflexivity.
Defined.

(** C5 as stated fails outside these conditions: for a query that is blank
    after normalization [q.split()] is empty and the function raises
    [IndexError] once a record is fetched, and for no candidates at all it
    returns [None]. *)
Lemma blank_query_has_no_first_word :
  Str.split_first (normalize " ") = None
  ∧ choose_best_candidate Fake.client [Fake.aspirin] " " 0%nat
    = (Raise IndexError, 1%nat)
  ∧ choose_best_candidate Fake.client [] "aspirin" 0%nat = (Ok None, 0%nat).
Proof. repeat split; vm_compute; reflexivity. Qed.

(** The example of the specification: a record whose preferred name is
    "Acetylsalicylic acid" and that lists the synonym "aspirin" is accepted
    for the query "aspirin"; a query of several words is matched on its
    first word as well. *)
Example deep_verification_accepts_synonym :
  choose_best_candidate Fake.client [Fake.ibuprofen; Fake.acetylsalicylic] "aspirin" 0%nat
  = (Ok (Some "CHEMBL25"), 2%nat)
  ∧ score "aspirin" Fake.acetylsalicylic = 0
  ∧ choose_best_candidate Fake.client [Fake.acetylsalicylic] "Aspirin tablets" 0%nat
    = (Ok (Some "CHEMBL25"), 1%nat).
Proof. repeat split; vm_compute; reflexivity. Qed.

(** Outside the conditions of C5: no candidates give [None], and a blank
    query raises [IndexError] at [q.split()[0]] once a fetch succeeds. *)
Example choose_best_candidate_edges :
  choose_best_candidate Fake.client [] "aspirin" 0%nat = (Ok None, 0%nat)
  ∧ choose_best_candidate Fake.client [Fake.aspirin] " " 0%nat
    = (Raise IndexError, 1%nat).
Proof. split; vm_compute; reflexivity. Qed.

(** ** Structure and mechanism fetches *)

Lemma targets_loop_map chembl_id (mechs : iterable mechanism) results :
  (targets_loop chembl_id mechs results).1
  = (results ++ map (target_row chembl_id) (yielded mechs))%list.
Proof.
  revert results. induction mechs as [|m rest IH|e]; intros results; simpl.
  - by rewrite app_nil_r.
  - by rewrite IH, <- app_assoc.
  - by rewrite app_nil_r.
Qed.

Section Fetches.
Context {World : Type} (cl : Client World).

Lemma fetch_molecule_data_eq chembl_id w :
  fetch_molecule_data cl chembl_id w
  = match molecule_get cl chembl_id w with
    | (Ok mol, w') =>
        let struct := default (mk_structures None None) (molecule_structures mol) in
        (Ok (canonical_smiles struct, standard_inchi_key struct, molecule_type mol), w')
    | (Raise _, w') => (Ok (None, None, None), w')
    end.
Proof.
  unfold fetch_molecule_data. unfold_M.
  by destruct (molecule_get cl chembl_id w) as [[mol|e] w'].
Qed.

Lemma fetch_targets_eq chembl_id w :
  fetch_targets cl chembl_id w
  = match mechanism_filter cl chembl_id w with
    | (Ok mechs, w') => (Ok (map (target_row chembl_id) (yielded mechs)), w')
    | (Raise _, w') => (Ok [], w')
    end.
Proof.
  unfold fetch_targets.
  destruct (mechanism_filter cl chembl_id w) as [[mechs|e] w']; [|done].
  by rewrite targets_loop_map.
Qed.

Lemma find_candidates_eq name w :
  find_candidates cl name w
  = match pref_name_exact cl name w with
    | (Ok (Some c), w') =>
        if dict_truthy c then (Ok [c], w') else limited_text_search cl name w'
    | (Ok None, w') => limited_text_search cl name w'
    | (Raise e, w') => (Raise e, w')
    end.
Proof.
  unfold find_candidates. unfold_M.
  destruct (pref_name_exact cl name w) as [[[c|]|e] w']; try done.
  by destruct (dict_truthy c).
Qed.

Lemma find_candidates_returns name w :
  ∃ candidates w', find_candidates cl name w = (Ok candidates, w').
Proof.
  rewrite find_candidates_eq, pref_name_exact_eq.
  assert (∀ w1, ∃ candidates w',
             limited_text_search cl name w1 = (Ok candidates, w')) as Hsearch.
  { intros w1. rewrite limited_text_search_eq.
    destruct (molecule_search cl name w1) as [[?|?] ?]; eauto. }
  destruct (molecule_filter cl name w) as [[res|e] w1]; [|apply Hsearch].
  destruct (head (yielded res)) as [c|]; [|apply Hsearch].
  destruct (dict_truthy c); [eauto | apply Hsearch].
Qed.

Lemma choose_best_candidate_returns candidates query_name w :
  candidates ≠ [] → normalize query_name ≠ "" →
  ∃ chembl_id w', choose_best_candidate cl candidates query_name w
                  = (Ok chembl_id, w').
Proof.
  intros Hne Hq. destruct (normalize_split_first _ Hq) as [q1 Hq1].
  unfold choose_best_candidate. destruct candidates as [|c0 cs0]; [done |].
  set (ranked := sorted_reverse _ _).
  assert (ranked ≠ []) as Hr.
  { intros E. pose proof (sorted_reverse_perm (score query_name) (c0 :: cs0)) as Hp.
    fold ranked in Hp. rewrite E in Hp. by apply Permutation_nil_l in Hp. }
  unfold_M.
  destruct (deep_check_spec cl (take DEEP_CHECK ranked) query_name q1 w Hq1)
    as [(pre & c & post & full & w1 & w' & _ & _ & _ & _ & ->) | (w' & _ & ->)].
  - eauto.
  - destruct ranked; [done | eauto].
Qed.

End Fetches.

(** ** One turn of the main loop *)

Lemma foldl_append_target name (targets : list Target.t) tb :
  foldl (λ tb t, append_target tb (Target.set_query_name t name)) tb targets
  = mk_tables (meta_records tb)
      (target_records tb ++ map (λ t, Target.set_query_name t name) targets).
Proof.
  revert tb. induction targets as [|t ts IH]; intros tb; simpl.
  - rewrite app_nil_r. by destruct tb.
  - rewrite IH. simpl. by rewrite <- app_assoc.
Qed.

Lemma truthy_false x : truthy x = false ↔ x = None ∨ x = Some "".
Proof.
  destruct x as [[|a s]|]; simpl; split; try done; eauto.
  by intros [|].
Qed.

Lemma is_small_spec mol_type smiles :
  is_small mol_type smiles = true
  ↔ (∃ t, mol_type = Some t ∧ Str.lower t = "small molecule")
    ∧ (∃ s, smiles = Some s ∧ s ≠ "").
Proof.
  unfold is_small. rewrite !andb_true_iff, bool_decide_eq_true. split.
  - intros [[Ht Hl] Hs]. split.
    + destruct mol_type as [t|]; [by exists t | done].
    + destruct smiles as [[|c s]|]; try done. by eexists.
  - intros [(t & -> & Hl) (s & -> & Hs)]. split; [split; [|done] |].
    + by destruct t.
    + by destruct s.
Qed.

Section Turn.
Context {World : Type} (cl : Client World).

Lemma loop_body_blank name tb w :
  Str.strip name = "" → loop_body cl name tb w = (Ok tb, w).
Proof. intros H. unfold loop_body. by rewrite H. Qed.

(** The turn for a name that is not blank, along the calls it makes. *)
Lemma loop_body_spec name tb w :
  Str.strip name ≠ "" →
  let n := Str.strip name in
  ∃ candidates w1,
    find_candidates cl n w = (Ok candidates, w1)
    ∧ match candidates with
      | [] =>
          loop_body cl name tb w
          = (Ok (append_meta tb (Meta.mk n None None None None "no_hit")), w1)
      | _ :: _ =>
          ∃ chembl_id w2,
            choose_best_candidate cl candidates n w1 = (Ok chembl_id, w2)
            ∧ if truthy chembl_id then
                ∃ smiles inchi_key mol_type w3,
                  fetch_molecule_data cl chembl_id w2
                  = (Ok (smiles, inchi_key, mol_type), w3)
                  ∧ if is_small mol_type smiles then
                      ∃ targets w4,
                        fetch_targets cl chembl_id w3 = (Ok targets, w4)
                        ∧ loop_body cl name tb w
                          = (Ok (mk_tables
                                   (meta_records tb
                                    ++ [Meta.mk n chembl_id smiles inchi_key mol_type "ok"])
                                   (target_records tb
                                    ++ map (λ t, Target.set_query_name t n) targets)),
                             w4)
                    else
                      loop_body cl name tb w
                      = (Ok (append_meta tb
                               (Meta.mk n chembl_id smiles inchi_key mol_type
                                  "non_small_or_no_smiles")), w3)
              else
                loop_body cl name tb w
                = (Ok (append_meta tb (Meta.mk n None None None None "no_candidate")),
                   w2)
      end.
Proof.
  intros Hn n.
  destruct (find_candidates_returns cl n w) as (candidates & w1 & Hfind).
  exists candidates, w1. split; [done |].
  unfold loop_body. fold n. rewrite bool_decide_eq_false_2 by done.
  unfold_M. rewrite Hfind.
  destruct candidates as [|c0 cs0]; [done |].
  destruct (choose_best_candidate_returns cl (c0 :: cs0) n w1)
    as (chembl_id & w2 & Hchoose); [done | by apply normalize_nonempty |].
  exists chembl_id, w2. split; [done |]. rewrite Hchoose.
  destruct (truthy chembl_id); simpl; [|done].
  rewrite fetch_molecule_data_eq.
  destruct (molecule_get cl chembl_id w2) as [[mol|e] w3]; simpl.
  - eexists _, _, _, w3. split; [done |].
    destruct (is_small _ _); [|done].
    rewrite fetch_targets_eq.
    destruct (mechanism_filter cl chembl_id w3) as [[mechs|e] w4];
      eexists _, w4; (split; [done |]); by rewrite foldl_append_target.
  - exists None, None, None, w3. split; [done |]. done.
Qed.

(** What a turn adds to the two tables. *)
Lemma loop_body_adds name tb w :
  ∃ ms ts w',
    loop_body cl name tb w
    = (Ok (mk_tables (meta_records tb ++ ms) (target_records tb ++ ts)), w')
    ∧ map Meta.query_name ms = filter (λ n, n ≠ "") [Str.strip name]
    ∧ Forall (λ m, Meta.status m ∈ statuses) ms
    ∧ Forall (λ t, ∃ m, m ∈ ms ∧ Target.query_name t = Some (Meta.query_name m)
                        ∧ Meta.status m = "ok"
                        ∧ Target.molecule_chembl_id t = Meta.chembl_id m) ts.
Proof.
  destruct (decide (Str.strip name = "")) as [Hb|Hn].
  - exists [], [], w. rewrite loop_body_blank by done.
    rewrite !app_nil_r, filter_cons, decide_False by (by intros ?).
    by destruct tb.
  - rewrite filter_cons, decide_True by done.
    destruct (loop_body_spec name tb w Hn) as (candidates & w1 & _ & H).
    unfold statuses.
    destruct candidates as [|c0 cs0].
    { eexists [_], [], w1. rewrite H, app_nil_r. unfold append_meta.
      repeat split; repeat constructor. }
    destruct H as (chembl_id & w2 & _ & H).
    destruct (truthy chembl_id); cycle 1.
    { eexists [_], [], w2. rewrite H, app_nil_r. unfold append_meta.
      repeat split; repeat constructor. }
    destruct H as (smiles & inchi_key & mol_type & w3 & _ & H).
    destruct (is_small mol_type smiles); cycle 1.
    { eexists [_], [], w3. rewrite H, app_nil_r. unfold append_meta.
      repeat split; repeat constructor. }
    destruct H as (targets & w4 & Htargets & H).
    eexists [_], _, w4. rewrite H. split; [done |]. split; [done |].
    split; [repeat constructor |].
    apply Forall_forall. intros t (t0 & -> & Hin)%list_elem_of_fmap.
    eexists. split; [apply list_elem_of_here |]. simpl. split; [done |].
    split; [done |].
    rewrite fetch_targets_eq in Htargets.
    destruct (mechanism_filter cl chembl_id w3) as [[mechs|e] w5].
    + injection Htargets as <- <-.
      by apply list_elem_of_fmap in Hin as (m0 & -> & _).
    + injection Htargets as <- <-. by apply elem_of_nil in Hin.
Qed.

End Turn.

(** ** The list of names *)

Lemma elem_of_unique_from seen l x :
  x ∈ unique_from seen l ↔ x ∈ l ∧ x ∉ seen.
Proof.
  revert seen. induction l as [|y l IH]; intros seen; simpl.
  - rewrite !elem_of_nil. tauto.
  - case_bool_decide as Hy.
    + rewrite IH, elem_of_cons. split; [tauto |].
      intros [[-> | ?] ?]; [done | tauto].
    + rewrite !elem_of_cons, IH, elem_of_union, elem_of_singleton.
      destruct (decide (x = y)) as [-> | Hxy]; tauto.
Qed.

Lemma NoDup_unique_from seen l : NoDup (unique_from seen l).
Proof.
  revert seen. induction l as [|y l IH]; intros seen; simpl; [constructor |].
  case_bool_decide; [done |]. constructor; [|done].
  rewrite elem_of_unique_from. set_solver.
Qed.

Lemma filter_all {A} (P : A → Prop) `{∀ x, Decision (P x)} (l : list A) :
  Forall P l → filter P l = l.
Proof.
  induction 1 as [|x l Hx Hl IH]; [done |].
  by rewrite filter_cons_True, IH.
Qed.

Lemma unique_from_insert seen x l :
  x ∉ seen →
  unique_from (seen ∪ {[x]}) l = filter (λ y, y ≠ x) (unique_from seen l).
Proof.
  revert seen. induction l as [|y l IH]; intros seen Hx; simpl; [done |].
  destruct (decide (y = x)) as [-> | Hyx].
  - rewrite bool_decide_eq_true_2 by set_solver.
    rewrite bool_decide_eq_false_2 by done.
    rewrite filter_cons, decide_False by (by intros ?).
    symmetry. apply filter_all.
    apply Forall_forall. intros z Hz%elem_of_unique_from. set_solver.
  - case_bool_decide as Hy.
    + rewrite bool_decide_eq_true_2 by set_solver. by apply IH.
    + rewrite bool_decide_eq_false_2 by set_solver.
      rewrite filter_cons, decide_True by done. f_equal.
      rewrite <- IH by set_solver. f_equal. set_solver.
Qed.

(** [unique] keeps the first occurrence of every value, in order. *)
Lemma unique_cons x l :
  unique (x :: l) = x :: filter (λ y, y ≠ x) (unique l).
Proof.
  unfold unique. simpl. rewrite bool_decide_eq_false_2 by set_solver.
  f_equal. replace (∅ ∪ {[x]} : gset string) with ({[x]} ∪ ∅ : gset string) by set_solver.
  rewrite (union_comm_L {[x]} ∅). by apply unique_from_insert.
Qed.

Lemma elem_of_unique l x : x ∈ unique l ↔ x ∈ l.
Proof. unfold unique. rewrite elem_of_unique_from. set_solver. Qed.

Lemma elem_of_dropna col x : x ∈ dropna col ↔ Some x ∈ col.
Proof.
  unfold dropna. rewrite list_elem_of_omap. split.
  - intros (o & ? & Ho). unfold id in Ho. by subst.
  - intros ?. by exists (Some x).
Qed.

(** ** The whole run *)

Section Run.
Context {World : Type} (cl : Client World).

Lemma for_names_adds names tb w :
  ∃ ms ts w',
    for_names cl names tb w
    = (Ok (mk_tables (meta_records tb ++ ms) (target_records tb ++ ts)), w')
    ∧ map Meta.query_name ms = filter (λ n, n ≠ "") (map Str.strip names)
    ∧ Forall (λ m, Meta.status m ∈ statuses) ms
    ∧ Forall (λ t, ∃ m, m ∈ ms ∧ Target.query_name t = Some (Meta.query_name m)
                        ∧ Meta.status m = "ok"
                        ∧ Target.molecule_chembl_id t = Meta.chembl_id m) ts.
Proof.
  revert tb w. induction names as [|name names IH]; intros tb w.
  - exists [], [], w. simpl. rewrite !app_nil_r. by destruct tb.
  - destruct (loop_body_adds cl name tb w) as (ms1 & ts1 & w1 & Hb & Hq1 & Hs1 & Ht1).
    destruct (IH (mk_tables (meta_records tb ++ ms1) (target_records tb ++ ts1)) w1)
      as (ms2 & ts2 & w2 & Hf & Hq2 & Hs2 & Ht2).
    exists (ms1 ++ ms2)%list, (ts1 ++ ts2)%list, w2.
    cbn [for_names]. unfold_M. rewrite Hb, Hf. simpl.
    rewrite !app_assoc. split; [done |]. split; [|split].
    + by rewrite map_app, Hq1, Hq2, <- filter_app.
    + by apply Forall_app.
    + apply Forall_app. split.
      * eapply Forall_impl; [exact Ht1 |]. intros t (m & ? & ?).
        exists m. rewrite elem_of_app. tauto.
      * eapply Forall_impl; [exact Ht2 |]. intros t (m & ? & ?).
        exists m. rewrite elem_of_app. tauto.
Qed.

Lemma main_missing_column df w :
  df !! "Name" = None →
  main cl df w = (Raise (ValueError "Input CSV must contain a 'Name' column."), w).
Proof. intros H. unfold main. by rewrite H. Qed.

Lemma main_returns df col w :
  df !! "Name" = Some col →
  ∃ tb w',
    main cl df w = (Ok tb, w')
    ∧ map Meta.query_name (meta_records tb)
      = filter (λ n, n ≠ "") (map Str.strip (unique (dropna col)))
    ∧ Forall (λ m, Meta.status m ∈ statuses) (meta_records tb)
    ∧ Forall (λ t, ∃ m, m ∈ meta_records tb
                        ∧ Target.query_name t = Some (Meta.query_name m)
                        ∧ Meta.status m = "ok"
                        ∧ Target.molecule_chembl_id t = Meta.chembl_id m)
             (target_records tb).
Proof.
  intros H. unfold main. rewrite H.
  destruct (for_names_adds (unique (dropna col)) (mk_tables [] []) w)
    as (ms & ts & w' & -> & ? & ? & ?).
  by exists (mk_tables ms ts), w'.
Qed.

End Run.

Section Claims.
Context {World : Type} (cl : Client World).

(** C1. With a [Name] column in the input, the run returns. The names it
    processes are the non-null cells of the column without repetitions,
    each at the place of its first occurrence. Every name that is not
    blank gets exactly one metadata record, in the order of the names and
    under the stripped name; a blank name gets none. The status of every
    record is one of the four values. *)
Theorem one_meta_record_per_name (df : gmap string (list (option string)))
    (col : list (option string)) (w : World) :
  df !! "Name" = Some col →
  let names := unique (dropna col) in
  ∃ tb w',
    main cl df w = (Ok tb, w')
    ∧ map Meta.query_name (meta_records tb)
      = filter (λ n, n ≠ "") (map Str.strip names)
    ∧ Forall (λ m, Meta.status m ∈ statuses) (meta_records tb)
    ∧ NoDup names
    ∧ (∀ x, x ∈ names ↔ Some x ∈ col)
    ∧ unique [] = []
    ∧ (∀ x l, unique (x :: l) = x :: filter (λ y, y ≠ x) (unique l)).
Proof.
  intros Hcol names.
  destruct (main_returns cl df col w Hcol) as (tb & w' & Hmain & Hq & Hs & _).
  exists tb, w'. split; [done |]. split; [done |]. split; [done |].
  split; [apply NoDup_unique_from |]. split; [|split; [done | apply unique_cons]].
  intros x. unfold names. by rewrite elem_of_unique, elem_of_dropna.
Qed.

(** C2. Every target record of a run stands under the query name and the
    identifier of a metadata record of status "ok". Turn by turn: a turn
    either appends a metadata record of status "ok" followed by the rows
    that [fetch_targets] returned for its identifier, or it appends no
    target record and does not call the mechanism query at all (its
    outcome is the same whatever that query would answer). *)
Theorem targets_only_for_ok (df : gmap string (list (option string)))
    (w : World) (tb : tables) (w' : World) :
  main cl df w = (Ok tb, w') →
  (∀ t, t ∈ target_records tb →
        ∃ m, m ∈ meta_records tb
             ∧ Target.query_name t = Some (Meta.query_name m)
             ∧ Meta.status m = "ok"
             ∧ Target.molecule_chembl_id t = Meta.chembl_id m)
  ∧ (∀ name tb0 w0,
       (∃ m targets w3 w1,
           loop_body cl name tb0 w0
           = (Ok (mk_tables (meta_records tb0 ++ [m])
                    (target_records tb0
                     ++ map (λ t, Target.set_query_name t (Str.strip name)) targets)),
              w1)
           ∧ Meta.status m = "ok"
           ∧ is_small (Meta.molecule_type m) (Meta.smiles m) = true
           ∧ fetch_targets cl (Meta.chembl_id m) w3 = (Ok targets, w1))
       ∨ (∃ tb1 w1,
             loop_body cl name tb0 w0 = (Ok tb1, w1)
             ∧ target_records tb1 = target_records tb0
             ∧ (∀ m, m ∈ drop (length (meta_records tb0)) (meta_records tb1) →
                     Meta.status m ≠ "ok")
             ∧ ∀ mechs,
                 loop_body (with_mechanism cl mechs) name tb0 w0 = (Ok tb1, w1))).
Proof.
  intros Hmain. split.
  - destruct (df !! "Name") as [col|] eqn:Hcol.
    + destruct (main_returns cl df col w Hcol) as (tb2 & w2 & Hm & _ & _ & Ht).
      rewrite Hm in Hmain. injection Hmain as <- <-.
      intros t Hin. by eapply Forall_forall in Ht.
    + by rewrite main_missing_column in Hmain.
  - clear. intros name tb0 w0.
    destruct (decide (Str.strip name = "")) as [Hb|Hn].
    { right. exists tb0, w0. rewrite loop_body_blank by done.
      split; [done |]. split; [done |]. split.
      - rewrite drop_all. by intros m ?%elem_of_nil.
      - intros mechs. by rewrite loop_body_blank. }
    destruct (loop_body_spec cl name tb0 w0 Hn) as (cands & wa & Hfind & H).
    assert (∀ mechs, ∃ cands' wa',
               find_candidates cl (Str.strip name) w0 = (Ok cands', wa')
               ∧ match cands' with
                 | [] => loop_body (with_mechanism cl mechs) name tb0 w0
                         = (Ok (append_meta tb0
                                  (Meta.mk (Str.strip name) None None None None "no_hit")),
                            wa')
                 | _ :: _ =>
                     ∃ chembl_id w2,
                       choose_best_candidate cl cands' (Str.strip name) wa'
                       = (Ok chembl_id, w2)
                       ∧ if truthy chembl_id then
                           ∃ smiles inchi_key mol_type w3,
                             fetch_molecule_data cl chembl_id w2
                             = (Ok (smiles, inchi_key, mol_type), w3)
                             ∧ if is_small mol_type smiles then True
                               else loop_body (with_mechanism cl mechs) name tb0 w0
                                    = (Ok (append_meta tb0
                                             (Meta.mk (Str.strip name) chembl_id smiles
                                                inchi_key mol_type
                                                "non_small_or_no_smiles")), w3)
                         else loop_body (with_mechanism cl mechs) name tb0 w0
                              = (Ok (append_meta tb0
                                       (Meta.mk (Str.strip name) None None None None
                                          "no_candidate")), w2)
                 end) as Hother.
    { intros mechs.
      destruct (loop_body_spec (with_mechanism cl mechs) name tb0 w0 Hn)
        as (cands' & wa' & Hfind' & H').
      exists cands', wa'. split; [exact Hfind' |].
      destruct cands' as [|c0 cs0]; [exact H' |].
      destruct H' as (chembl_id & w2 & Hchoose & H').
      exists chembl_id, w2. split; [exact Hchoose |].
      destruct (truthy chembl_id); [|exact H'].
      destruct H' as (smiles & inchi_key & mol_type & w3 & Hfetch & H').
      exists smiles, inchi_key, mol_type, w3. split; [exact Hfetch |].
      by destruct (is_small mol_type smiles). }
    destruct cands as [|c0 cs0].
    { right. eexists _, wa. split; [exact H |]. split; [done |]. split.
      - simpl. rewrite drop_app_length. by intros m ->%list_elem_of_singleton.
      - intros mechs. destruct (Hother mechs) as (cands' & wa' & Hf & H').
        rewrite Hfind in Hf. by injection Hf as <- <-. }
    destruct H as (chembl_id & w2 & Hchoose & H).
    destruct (truthy chembl_id) eqn:Htruthy; cycle 1.
    { right. eexists _, w2. split; [exact H |]. split; [done |]. split.
      - simpl. rewrite drop_app_length. by intros m ->%list_elem_of_singleton.
      - intros mechs. destruct (Hother mechs) as (cands' & wa' & Hf & H').
        rewrite Hfind in Hf. injection Hf as <- <-.
        destruct H' as (chembl_id' & w2' & Hc & H'). rewrite Hchoose in Hc.
        injection Hc as <- <-. by rewrite Htruthy in H'. }
    destruct H as (smiles & inchi_key & mol_type & w3 & Hfetch & H).
    destruct (is_small mol_type smiles) eqn:Hsmall; cycle 1.
    { right. eexists _, w3. split; [exact H |]. split; [done |]. split.
      - simpl. rewrite drop_app_length. by intros m ->%list_elem_of_singleton.
      - intros mechs. destruct (Hother mechs) as (cands' & wa' & Hf & H').
        rewrite Hfind in Hf. injection Hf as <- <-.
        destruct H' as (chembl_id' & w2' & Hc & H'). rewrite Hchoose in Hc.
        injection Hc as <- <-. rewrite Htruthy in H'.
        destruct H' as (smiles' & inchi_key' & mol_type' & w3' & Hf' & H').
        rewrite Hfetch in Hf'. injection Hf' as <- <- <- <-.
        by rewrite Hsmall in H'. }
    destruct H as (targets & w4 & Htargets & H).
    left. eexists _, targets, w3, w4. split; [exact H |]. done.
Qed.

End Claims.

Section Status.
Context {World : Type} (cl : Client World).

(** C3 (amended). A turn for a name that is not blank appends one
    metadata record. Its status is "no_hit" exactly when the candidate
    list is empty; with candidates, it is "no_candidate" exactly when
    [choose_best_candidate] returned no usable identifier ([None] or the
    empty string); with an identifier, it is "ok" exactly when the fetched
    molecule type equals "small molecule" up to case and the fetched
    SMILES is neither null nor the empty string, and
    "non_small_or_no_smiles" otherwise. *)
Theorem status_assignment (name : string) (tb : tables) (w : World) :
  Str.strip name ≠ "" →
  let n := Str.strip name in
  ∃ m tb' w' candidates w1,
    loop_body cl name tb w = (Ok tb', w')
    ∧ meta_records tb' = (meta_records tb ++ [m])%list
    ∧ find_candidates cl n w = (Ok candidates, w1)
    ∧ (Meta.status m = "no_hit" ↔ candidates = [])
    ∧ (candidates ≠ [] →
       ∃ chembl_id w2,
         choose_best_candidate cl candidates n w1 = (Ok chembl_id, w2)
         ∧ (Meta.status m = "no_candidate" ↔ chembl_id = None ∨ chembl_id = Some "")
         ∧ (truthy chembl_id = true →
            ∃ smiles inchi_key mol_type w3,
              fetch_molecule_data cl chembl_id w2
              = (Ok (smiles, inchi_key, mol_type), w3)
              ∧ m = Meta.mk n chembl_id smiles inchi_key mol_type (Meta.status m)
              ∧ (Meta.status m = "ok"
                 ↔ (∃ t, mol_type = Some t ∧ Str.lower t = "small molecule")
                   ∧ (∃ s, smiles = Some s ∧ s ≠ ""))
              ∧ (Meta.status m ≠ "ok" →
                 Meta.status m = "non_small_or_no_smiles"))).
Proof.
  intros Hn n.
  destruct (loop_body_spec cl name tb w Hn) as (candidates & w1 & Hfind & H).
  fold n in Hfind, H.
  destruct candidates as [|c0 cs0].
  { eexists _, _, w1, [], w1. split; [exact H |]. split; [done |].
    split; [done |]. split; done. }
  destruct H as (chembl_id & w2 & Hchoose & H).
  pose proof (truthy_false chembl_id) as Hfalsy.
  destruct (truthy chembl_id) eqn:Htruthy; cycle 1.
  { eexists _, _, w2, (c0 :: cs0), w1. split; [exact H |]. split; [done |].
    split; [done |]. split; [by split |]. intros _.
    exists chembl_id, w2. split; [done |]. split; [|intros ?; congruence].
    simpl. split; [intros _; by apply Hfalsy | done]. }
  assert (¬ (chembl_id = None ∨ chembl_id = Some "")) as Husable.
  { intros Hf%Hfalsy. done. }
  destruct H as (smiles & inchi_key & mol_type & w3 & Hfetch & H).
  pose proof (is_small_spec mol_type smiles) as Hspec.
  destruct (is_small mol_type smiles) eqn:Hsmall.
  - destruct H as (targets & w4 & Htargets & H).
    eexists _, _, w4, (c0 :: cs0), w1. split; [exact H |]. split; [done |].
    split; [done |]. split; [by split |]. intros _.
    exists chembl_id, w2. split; [done |]. simpl. split; [by split |].
    intros _. exists smiles, inchi_key, mol_type, w3.
    split; [done |]. split; [done |]. split; [|done].
    split; [intros _; by apply Hspec | done].
  - eexists _, _, w3, (c0 :: cs0), w1. split; [exact H |]. split; [done |].
    split; [done |]. split; [by split |]. intros _.
    exists chembl_id, w2. split; [done |]. simpl. split; [by split |].
    intros _. exists smiles, inchi_key, mol_type, w3.
    split; [done |]. split; [done |]. split; [|done].
    split; [done |]. intros Hs%Hspec. done.
Qed.


End Status.

Lemma one_meta_record_per_name_witness :
  ∃ tb w',
    main Fake.client
      (Fake.frame [Some "Aspirin"; None; Some "  "; Some " Ibuprofen"; Some "Aspirin"])
      0%nat = (Ok tb, w')
    ∧ map Meta.query_name (meta_records tb) = ["Aspirin"; "Ibuprofen"].
Proof.
  destruct (one_meta_record_per_name Fake.client
              (Fake.frame [Some "Aspirin"; None; Some "  "; Some " Ibuprofen";
                           Some "Aspirin"])
              [Some "Aspirin"; None; Some "  "; Some " Ibuprofen"; Some "Aspirin"]
              0%nat)
    as (tb & w' & Hmain & Hnames & _); [reflexivity |].
  exists tb, w'. split; [exact Hmain |]. rewrite Hnames. reflexivity.
Defined.

Lemma targets_only_for_ok_witness :
  ∃ tb w',
    main Fake.client (Fake.frame [Some "Ibuprofen"; Some "Infliximab"]) 0%nat
    = (Ok tb, w')
    ∧ ∀ t, t ∈ target_records tb →
           ∃ m, m ∈ meta_records tb
                ∧ Target.query_name t = Some (Meta.query_name m)
                ∧ Meta.status m = "ok"
                ∧ Target.molecule_chembl_id t = Meta.chembl_id m.
Proof.
  eexists _, _. split; [vm_compute; reflexivity |].
  eapply (targets_only_for_ok Fake.client
            (Fake.frame [Some "Ibuprofen"; Some "Infliximab"]) 0%nat).
  vm_compute. reflexivity.
Defined.

Lemma status_assignment_witness :
  ∃ m tb' w',
    loop_body Fake.client " Ibuprofen " (mk_tables [] []) 0%nat = (Ok tb', w')
    ∧ meta_records tb' = [m].
Proof.
  destruct (status_assignment Fake.client " Ibuprofen " (mk_tables [] []) 0%nat)
    as (m & tb' & w' & _ & _ & H1 & H2 & _); [discriminate |].
  exists m, tb', w'. split; [exact H1 | exact H2].
Defined.


(** C3 as stated fails for a SMILES that is the empty string: the molecule
    type is "Small molecule" and the SMILES is not null, and the status is
    "non_small_or_no_smiles". *)
Lemma empty_smiles_is_not_ok :
  fetch_molecule_data Fake.client (Some "CHEMBL9") 2%nat
  = (Ok (Some "", None, Some "Small molecule"), 3%nat)
  ∧ Str.lower "Small molecule" = "small molecule"
  ∧ Some "" ≠ (None : option string)
  ∧ ∃ w', loop_body Fake.client "hollow" (mk_tables [] []) 0%nat
          = (Ok (mk_tables
                   [Meta.mk "hollow" (Some "CHEMBL9") (Some "") None
                      (Some "Small molecule") "non_small_or_no_smiles"] []), w').
Proof. repeat split; [done | by eexists]. Qed.


(** ** Two runs *)

Section TwoRuns.
Context {W1 W2 : Type} (R : W1 → W2 → Prop).
Context (cl1 : Client W1) (cl2 : Client W2).
Context (Hsame : same_responses R cl1 cl2).

Lemma alike_ret {A} (a : A) : alike R (ret a) (ret a).
Proof. by intros w1 w2 HR. Qed.

Lemma alike_raise {A} e : alike R (raise (A:=A) e) (raise e).
Proof. by intros w1 w2 HR. Qed.

Lemma alike_bind {A B} (m1 : M W1 A) (m2 : M W2 A)
    (k1 : A → M W1 B) (k2 : A → M W2 B) :
  alike R m1 m2 → (∀ a, alike R (k1 a) (k2 a)) → alike R (bind m1 k1) (bind m2 k2).
Proof.
  intros Hm Hk w1 w2 HR. unfold bind.
  destruct (Hm w1 w2 HR) as [E HR'].
  destruct (m1 w1) as [[a1|e1] w1'], (m2 w2) as [[a2|e2] w2']; simpl in *;
    try discriminate.
  - injection E as ->. by apply Hk.
  - by injection E as ->.
Qed.

Lemma alike_try_except {A} (m1 : M W1 A) (m2 : M W2 A) h1 h2 :
  alike R m1 m2 → alike R h1 h2 → alike R (try_except m1 h1) (try_except m2 h2).
Proof.
  intros Hm Hh w1 w2 HR. unfold try_except.
  destruct (Hm w1 w2 HR) as [E HR'].
  destruct (m1 w1) as [[a1|e1] w1'], (m2 w2) as [[a2|e2] w2']; simpl in *;
    try discriminate.
  - by injection E as ->.
  - by apply Hh.
Qed.

(** A helper that matches on the outcome of one request [op]: [eqn] is
    its equation, [H] says that the two services answer [op] alike. *)
Local Ltac one_request eqn H op1 op2 :=
  let w1 := fresh "w1" in
  let w2 := fresh "w2" in
  let HR := fresh "HR" in
  let E := fresh "E" in
  intros w1 w2 HR; rewrite !eqn;
  destruct (H w1 w2 HR) as [E ?];
  destruct (op1 w1) as [[?|?] ?], (op2 w2) as [[?|?] ?]; simpl in *;
  try discriminate; try (injection E as ->); done.

Lemma alike_pref_name_exact name :
  alike R (pref_name_exact cl1 name) (pref_name_exact cl2 name).
Proof.
  destruct Hsame as (H & _).
  one_request @pref_name_exact_eq (H name)
    (molecule_filter cl1 name) (molecule_filter cl2 name).
Qed.

Lemma alike_limited_text_search name :
  alike R (limited_text_search cl1 name) (limited_text_search cl2 name).
Proof.
  destruct Hsame as (_ & H & _).
  one_request @limited_text_search_eq (H name)
    (molecule_search cl1 name) (molecule_search cl2 name).
Qed.

Lemma alike_fetch_targets chembl_id :
  alike R (fetch_targets cl1 chembl_id) (fetch_targets cl2 chembl_id).
Proof.
  destruct Hsame as (_ & _ & _ & H).
  one_request @fetch_targets_eq (H chembl_id)
    (mechanism_filter cl1 chembl_id) (mechanism_filter cl2 chembl_id).
Qed.

Lemma alike_fetched chembl_id :
  alike R (try_except (full ← molecule_get cl1 chembl_id; ret (Some full)) (ret None))
          (try_except (full ← molecule_get cl2 chembl_id; ret (Some full)) (ret None)).
Proof.
  apply alike_try_except; [|apply alike_ret].
  destruct Hsame as (_ & _ & H & _).
  apply alike_bind; [apply H | intros; apply alike_ret].
Qed.

Lemma alike_fetch_molecule_data chembl_id :
  alike R (fetch_molecule_data cl1 chembl_id) (fetch_molecule_data cl2 chembl_id).
Proof.
  apply alike_bind; [apply alike_fetched |].
  intros [mol|]; apply alike_ret.
Qed.

Lemma alike_deep_check ranked query_name :
  alike R (deep_check cl1 ranked query_name) (deep_check cl2 ranked query_name).
Proof.
  induction ranked as [|c rest IH]; cbn [deep_check]; [apply alike_ret |].
  apply alike_bind; [apply alike_fetched |].
  intros [full|]; [|exact IH].
  destruct (Str.split_first _); [|apply alike_raise].
  destruct (_ || _); [apply alike_ret |].
  apply alike_bind; [apply alike_ret | by intros].
Qed.

Lemma alike_choose_best_candidate candidates query_name :
  alike R (choose_best_candidate cl1 candidates query_name)
          (choose_best_candidate cl2 candidates query_name).
Proof.
  unfold choose_best_candidate. destruct candidates; [apply alike_ret |].
  apply alike_bind; [apply alike_deep_check |].
  intros [chembl_id|]; [apply alike_ret |].
  destruct (sorted_reverse _ _); [apply alike_raise | apply alike_ret].
Qed.

Lemma alike_find_candidates name :
  alike R (find_candidates cl1 name) (find_candidates cl2 name).
Proof.
  apply alike_bind; [apply alike_pref_name_exact |]. intros candidate.
  apply alike_bind; [apply alike_ret |]. intros _.
  destruct candidate as [c|]; [|apply alike_limited_text_search].
  destruct (dict_truthy c); [apply alike_ret | apply alike_limited_text_search].
Qed.

Lemma alike_loop_body name tb :
  alike R (loop_body cl1 name tb) (loop_body cl2 name tb).
Proof.
  unfold loop_body. case_bool_decide; [apply alike_ret |].
  apply alike_bind; [apply alike_find_candidates |].
  intros [|c0 cs0]; [apply alike_ret |].
  apply alike_bind; [apply alike_choose_best_candidate |]. intros chembl_id.
  destruct (negb _); [apply alike_ret |].
  apply alike_bind; [apply alike_fetch_molecule_data |].
  intros [[smiles inchi_key] mol_type].
  apply alike_bind; [apply alike_ret |]. intros _.
  destruct (is_small _ _); [|apply alike_ret].
  apply alike_bind; [apply alike_fetch_targets |]. intros targets.
  apply alike_bind; [apply alike_ret |]. intros _. apply alike_ret.
Qed.

Lemma alike_for_names names tb :
  alike R (for_names cl1 names tb) (for_names cl2 names tb).
Proof.
  revert tb. induction names as [|name names IH]; intros tb; cbn [for_names].
  - apply alike_ret.
  - apply alike_bind; [apply alike_loop_body | exact IH].
Qed.

Lemma alike_main df : alike R (main cl1 df) (main cl2 df).
Proof.
  unfold main. destruct (df !! "Name"); [apply alike_for_names | apply alike_raise].
Qed.

End TwoRuns.

(** C9. Two runs on the same data frame, against services that return the
    same response to every request, have the same outcome: the same
    metadata rows and the same target rows, in the same order and with the
    same values. [R] relates the states the two services are in at
    corresponding moments. *)
Theorem same_responses_same_rows {W1 W2 : Type} (R : W1 → W2 → Prop)
    (cl1 : Client W1) (cl2 : Client W2)
    (df : gmap string (list (option string))) (w1 : W1) (w2 : W2) :
  same_responses R cl1 cl2 →
  R w1 w2 →
  (main cl1 df w1).1 = (main cl2 df w2).1.
Proof.
  intros Hsame HR. by apply (alike_main R cl1 cl2 Hsame df w1 w2).
Qed.

Lemma same_responses_same_rows_witness :
  (main Fake.client (Fake.frame [Some "Aspirin"; Some "Ibuprofen"]) 0%nat).1
  = (main Fake.client (Fake.frame [Some "Aspirin"; Some "Ibuprofen"]) 7%nat).1.
Proof.
  apply (same_responses_same_rows (λ _ _, True) Fake.client Fake.client).
  - repeat split.
  - exact I.
Defined.

(** * Further properties of the code *)

(** ** Normalization *)

Module NormFacts.
Import Str.

Lemma lower_char_idemp c : lower_char (lower_char c) = lower_char c.
Proof. destruct c as [[] [] [] [] [] [] [] []]; reflexivity. Qed.

Lemma lower_idemp s : lower (lower s) = lower s.
Proof.
  induction s as [|c s IH]; simpl; [done |].
  by rewrite lower_char_idemp, IH.
Qed.

Lemma lstrip_lower s : lstrip (lower s) = lower (lstrip s).
Proof.
  induction s as [|c s IH]; simpl; [done |].
  rewrite StrFacts.isspace_lower_char. by destruct (isspace c).
Qed.

Lemma lower_empty s : lower s = "" ↔ s = "".
Proof. by destruct s. Qed.

Lemma rstrip_lower s : rstrip (lower s) = lower (rstrip s).
Proof.
  induction s as [|c s IH]; simpl; [done |].
  rewrite IH, StrFacts.isspace_lower_char.
  destruct (rstrip s) as [|d r]; simpl; [by destruct (isspace c) | done].
Qed.

Lemma strip_lower s : strip (lower s) = lower (strip s).
Proof. unfold strip. by rewrite lstrip_lower, rstrip_lower. Qed.

Lemma rstrip_idemp s : rstrip (rstrip s) = rstrip s.
Proof.
  induction s as [|c s IH]; simpl; [done |].
  destruct (rstrip s) as [|d r] eqn:E.
  - destruct (isspace c) eqn:Ec; simpl; [done | by rewrite Ec].
  - cbn [rstrip]. cbn [rstrip] in IH. by rewrite IH.
Qed.

(** A string that does not begin with white space. *)
Lemma lstrip_fixed s : lstrip (lstrip s) = lstrip s.
Proof.
  induction s as [|c s IH]; simpl; [done |].
  destruct (isspace c) eqn:Ec; [done |]. simpl. by rewrite Ec.
Qed.

Lemma lstrip_rstrip s : lstrip s = s → lstrip (rstrip s) = rstrip s.
Proof.
  destruct s as [|c s]; simpl; [done |].
  destruct (isspace c) eqn:Ec.
  - intros H. exfalso.
    assert (String.length (lstrip s) ≤ String.length s)%nat as Hlen.
    { clear. induction s as [|d s IH]; simpl; [lia |].
      destruct (isspace d); simpl; lia. }
    rewrite H in Hlen. simpl in Hlen. lia.
  - intros _. destruct (rstrip s); simpl; by rewrite Ec.
Qed.

Lemma strip_idemp s : strip (strip s) = strip s.
Proof.
  unfold strip. rewrite (lstrip_rstrip (lstrip s)) by apply lstrip_fixed.
  apply rstrip_idemp.
Qed.

End NormFacts.

Lemma normalize_idemp s : normalize (normalize s) = normalize s.
Proof.
  unfold normalize.
  by rewrite <- NormFacts.strip_lower, NormFacts.lower_idemp, NormFacts.strip_idemp.
Qed.

Lemma normalize_lower s : normalize (Str.lower s) = normalize s.
Proof. unfold normalize. by rewrite NormFacts.lower_idemp. Qed.

Lemma normalize_strip s : normalize (Str.strip s) = normalize s.
Proof.
  unfold normalize. by rewrite <- NormFacts.strip_lower, NormFacts.strip_idemp.
Qed.

(** ** More on ranking *)

Lemma startswith_refl s : Str.startswith s s = true.
Proof. induction s as [|c s IH]; simpl; [done |]. by rewrite bool_decide_eq_true_2. Qed.

Lemma contains_refl s : Str.contains s s = true.
Proof. destruct s; simpl; [done |]. by rewrite bool_decide_eq_true_2, startswith_refl. Qed.

(** X2. The part of the score that comes from the names is 220, 20 or 0:
    equal normalized names always pass the containment test too, so an
    exact match scores 220 plus the phase term and never 200 plus it;
    different names score 20 or 0 plus the phase term. *)
Theorem score_name_part (query_name : string) (c : molecule) :
  let pref := normalize (or_empty (pref_name c)) in
  let q := normalize query_name in
  let base := score query_name c - 5 * phase_of (max_phase c) in
  (pref = q → base = 220)
  ∧ (pref ≠ q → base = 20 ∨ base = 0)
  ∧ (base = 220 ∨ base = 20 ∨ base = 0)
  ∧ (220 ≤ base ↔ pref = q).
Proof.
  intros pref q base. unfold base. rewrite score_eq. fold pref q.
  case_bool_decide as Heq.
  - rewrite <- Heq, contains_refl. simpl. repeat split; intros; (done || lia).
  - destruct (_ || _); repeat split; intros; (done || lia || (try tauto)).
Qed.

Lemma score_name_part_witness :
  score "aspirin" Fake.aspirin - 5 * phase_of (max_phase Fake.aspirin) = 220.
Proof.
  destruct (score_name_part "aspirin" Fake.aspirin) as (H & _).
  apply H. reflexivity.
Defined.

Section Head.
Context {A : Type} (key : A → Z).

Lemma head_insert_desc x l :
  head (insert_desc key x l)
  = match l with
    | [] => Some x
    | y :: _ => if key x <? key y then Some y else Some x
    end.
Proof. destruct l as [|y l]; simpl; [done |]. by destruct (key x <? key y). Qed.

Lemma sorted_reverse_head l top :
  head (sorted_reverse key l) = Some top →
  ∃ pre post,
    l = (pre ++ top :: post)%list
    ∧ Forall (λ c, key c < key top) pre
    ∧ Forall (λ c, key c ≤ key top) post.
Proof.
  revert top. induction l as [|x l IH]; intros top; simpl; [done |].
  rewrite head_insert_desc.
  destruct (sorted_reverse key l) as [|y s] eqn:E.
  - intros [= <-]. exists [], l. split; [done |]. split; [constructor |].
    pose proof (sorted_reverse_perm key l) as Hp. rewrite E in Hp.
    apply Permutation_nil_l in Hp. by subst.
  - destruct (IH y eq_refl) as (pre & post & -> & Hpre & Hpost).
    destruct (Z.ltb_spec (key x) (key y)) as [Hlt | Hge]; intros [= <-].
    + exists (x :: pre), post. split; [done |]. split; [by constructor | done].
    + exists [], (pre ++ y :: post)%list. split; [done |]. split; [constructor |].
      apply Forall_app. split.
      * eapply Forall_impl; [exact Hpre |]. simpl. intros; lia.
      * constructor; [lia |]. eapply Forall_impl; [exact Hpost |]. simpl. intros; lia.
Qed.

Lemma sorted_reverse_ext (key' : A → Z) l :
  (∀ a, key a = key' a) → sorted_reverse key l = sorted_reverse key' l.
Proof.
  intros H. induction l as [|x l IH]; simpl; [done |]. rewrite IH.
  generalize (sorted_reverse key' l). intros s.
  induction s as [|y s IHs]; simpl; [done |]. by rewrite !H, IHs.
Qed.

End Head.

(** X1. The candidate ranked first, whose identifier is the fall-back of
    [choose_best_candidate], is the first candidate in encounter order that
    has the highest score: every candidate before it scores strictly less
    and none after it scores more. *)
Theorem top_ranked_is_first_best (query_name : string)
    (candidates : list molecule) (top : molecule) :
  head (sorted_reverse (score query_name) candidates) = Some top →
  (∀ c, c ∈ candidates → score query_name c ≤ score query_name top)
  ∧ ∃ before after,
      candidates = (before ++ top :: after)%list
      ∧ Forall (λ c, score query_name c < score query_name top) before
      ∧ Forall (λ c, score query_name c ≤ score query_name top) after.
Proof.
  intros Hhead.
  destruct (sorted_reverse_head _ _ _ Hhead) as (before & after & -> & Hb & Ha).
  split; [|by exists before, after].
  intros c [Hc | [-> | Hc]%elem_of_cons]%elem_of_app.
  - eapply Forall_forall in Hb; [|exact Hc]. simpl in Hb. lia.
  - lia.
  - by eapply Forall_forall in Ha.
Qed.

Lemma top_ranked_is_first_best_witness :
  ∃ before after,
    [Fake.hollow; Fake.ibuprofen; Fake.aspirin]
    = (before ++ Fake.ibuprofen :: after)%list
    ∧ Forall (λ c, score "many" c < score "many" Fake.ibuprofen) before.
Proof.
  destruct (top_ranked_is_first_best "many"
              [Fake.hollow; Fake.ibuprofen; Fake.aspirin] Fake.ibuprofen)
    as (_ & before & after & H1 & H2 & _); [reflexivity |].
  exists before, after. split; [exact H1 | exact H2].
Defined.

(** X11. A [max_phase] given as a string with a decimal point, such as
    "4.0", is rejected by [int()] and adds nothing: the score is the name
    part alone. *)
Theorem decimal_phase_string_adds_nothing (query_name s : string) (c : molecule) :
  Str.contains "." s = true →
  max_phase c = PyStr s →
  phase_of (max_phase c) = 0
  ∧ score query_name c
    = (if bool_decide (normalize (or_empty (pref_name c)) = normalize query_name)
       then 200 else 0)
      + (if Str.contains (normalize query_name) (normalize (or_empty (pref_name c)))
            || Str.contains (normalize (or_empty (pref_name c))) (normalize query_name)
         then 20 else 0).
Proof.
  intros (a & b & ->)%StrFacts.contains_spec Hmp.
  assert (phase_of (max_phase c) = 0) as H0.
  { rewrite Hmp. apply phase_of_not_a_number. apply IntFacts.parse_int_dot. }
  split; [done |]. rewrite score_eq, H0. simpl. lia.
Qed.

Lemma decimal_phase_string_adds_nothing_witness :
  phase_of (max_phase Fake.acetylsalicylic) = 0.
Proof.
  destruct (decimal_phase_string_adds_nothing "aspirin" "4.0" Fake.acetylsalicylic)
    as (H & _); [reflexivity | reflexivity | exact H].
Defined.

(** ** More on the choice of a candidate *)

Lemma score_normalized q1 q2 c :
  normalize q1 = normalize q2 → score q1 c = score q2 c.
Proof. intros H. unfold score. by rewrite H. Qed.

Section Choice.
Context {World : Type} (cl : Client World).

Lemma deep_check_normalized q1 q2 (cs : list molecule) w :
  normalize q1 = normalize q2 → deep_check cl cs q1 w = deep_check cl cs q2 w.
Proof.
  intros H. revert w. induction cs as [|c cs IH]; intros w; [done |].
  cbn [deep_check]. unfold_M. rewrite H.
  destruct (molecule_get cl (molecule_chembl_id c) w) as [[full|e] w1]; [|apply IH].
  destruct (Str.split_first (normalize q2)); [|done].
  destruct (_ || _); [done | apply IH].
Qed.

Lemma choose_best_candidate_normalized q1 q2 candidates w :
  normalize q1 = normalize q2 →
  choose_best_candidate cl candidates q1 w = choose_best_candidate cl candidates q2 w.
Proof.
  intros H. unfold choose_best_candidate. destruct candidates as [|c0 cs0]; [done |].
  rewrite (sorted_reverse_ext (score q1) (score q2)) by (intros; by apply score_normalized).
  unfold_M. by rewrite (deep_check_normalized q1 q2).
Qed.

(** X3. Ranking and deep verification do not depend on the case of the
    query nor on white space around it: the score of every candidate and
    the result of [choose_best_candidate] are the same for a query, for its
    lower-cased form and for its stripped form. *)
Theorem choice_ignores_case_and_padding (candidates : list molecule)
    (query_name : string) (w : World) :
  (∀ c, score (Str.lower query_name) c = score query_name c
        ∧ score (Str.strip query_name) c = score query_name c)
  ∧ choose_best_candidate cl candidates (Str.lower query_name) w
    = choose_best_candidate cl candidates query_name w
  ∧ choose_best_candidate cl candidates (Str.strip query_name) w
    = choose_best_candidate cl candidates query_name w
  ∧ choose_best_candidate cl candidates (normalize query_name) w
    = choose_best_candidate cl candidates query_name w.
Proof.
  split; [|split; [|split]].
  - intros c. split; apply score_normalized;
      [apply normalize_lower | apply normalize_strip].
  - apply choose_best_candidate_normalized, normalize_lower.
  - apply choose_best_candidate_normalized, normalize_strip.
  - apply choose_best_candidate_normalized, normalize_idemp.
Qed.

Lemma ranked_nonempty query_name (candidates : list molecule) :
  candidates ≠ [] →
  ∃ top rest, sorted_reverse (score query_name) candidates = top :: rest.
Proof.
  intros Hne. destruct (sorted_reverse _ _) as [|top rest] eqn:E; [|eauto].
  pose proof (sorted_reverse_perm (score query_name) candidates) as Hp.
  rewrite E in Hp. apply Permutation_nil_l in Hp. by subst.
Qed.

(** X4. For candidates and a query that is not blank, the identifier that
    [choose_best_candidate] returns is the [molecule_chembl_id] field of one
    of the first [DEEP_CHECK] ranked candidates, hence of one of the given
    candidates; the records fetched during the deep check only decide
    which one. With a single candidate the result is that candidate's
    identifier whatever the service answers. *)
Theorem chosen_identifier_is_a_candidates (candidates : list molecule)
    (query_name : string) (w : World) :
  candidates ≠ [] →
  normalize query_name ≠ "" →
  (∃ c w',
      choose_best_candidate cl candidates query_name w
      = (Ok (molecule_chembl_id c), w')
      ∧ c ∈ take DEEP_CHECK (sorted_reverse (score query_name) candidates)
      ∧ c ∈ candidates)
  ∧ (∀ c, candidates = [c] →
          ∃ w', choose_best_candidate cl candidates query_name w
                = (Ok (molecule_chembl_id c), w')).
Proof.
  intros Hne Hq.
  destruct (normalize_split_first _ Hq) as [q1 Hq1].
  destruct (ranked_nonempty query_name candidates Hne) as (top & rest & Hranked).
  assert (∃ c w',
      choose_best_candidate cl candidates query_name w
      = (Ok (molecule_chembl_id c), w')
      ∧ c ∈ take DEEP_CHECK (sorted_reverse (score query_name) candidates)) as Hmain.
  { unfold choose_best_candidate. destruct candidates as [|c0 cs0]; [done |].
    unfold_M.
    destruct (deep_check_spec cl
                (take DEEP_CHECK (sorted_reverse (score query_name) (c0 :: cs0)))
                query_name q1 w Hq1)
      as [(pre & c & post & full & w1 & w' & He & _ & _ & _ & ->) | (w' & _ & ->)].
    - exists c, w'. split; [done |]. rewrite He. set_solver.
    - rewrite Hranked. exists top, w'. split; [done |]. simpl. left. }
  destruct Hmain as (c & w' & Hc & Hin).
  assert (c ∈ candidates) as Hin'.
  { rewrite <- (sorted_reverse_perm (score query_name) candidates).
    by apply (subseteq_take DEEP_CHECK). }
  split; [by exists c, w' |].
  intros c1 ->. apply list_elem_of_singleton in Hin' as ->. by exists w'.
Qed.

(** X5. A query that is blank after normalization: when the record of the
    top-ranked candidate can be fetched, [choose_best_candidate] raises
    [IndexError] at [q.split()[0]] after that one request; when every fetch
    fails it returns the identifier of the top-ranked candidate. *)
Theorem blank_query_raises_index_error (candidates : list molecule)
    (query_name : string) (top : molecule) (w : World) :
  normalize query_name = "" →
  head (sorted_reverse (score query_name) candidates) = Some top →
  (∀ full w1,
      molecule_get cl (molecule_chembl_id top) w = (Ok full, w1) →
      choose_best_candidate cl candidates query_name w = (Raise IndexError, w1))
  ∧ ((∀ chembl_id w0, ∃ e w1, molecule_get cl chembl_id w0 = (Raise e, w1)) →
     ∃ w', choose_best_candidate cl candidates query_name w
           = (Ok (molecule_chembl_id top), w')).
Proof.
  intros Hq Hhead.
  destruct (sorted_reverse (score query_name) candidates) as [|top' rest] eqn:E;
    [done |]. injection Hhead as ->.
  assert (candidates ≠ []) as Hne by (by intros ->).
  split.
  - intros full w1 Hget. unfold choose_best_candidate.
    destruct candidates as [|c0 cs0]; [done |]. rewrite E.
    cbn [take DEEP_CHECK deep_check firstn]. unfold_M. rewrite Hget, Hq. done.
  - intros Hdown. unfold choose_best_candidate.
    destruct candidates as [|c0 cs0]; [done |]. rewrite E. unfold_M.
    assert (∀ cs w0, ∃ w', deep_check cl cs query_name w0 = (Ok None, w')) as Hd.
    { induction cs as [|c cs IH]; intros w0; [by exists w0 |].
      cbn [deep_check]. unfold_M.
      destruct (Hdown (molecule_chembl_id c) w0) as (e & w1 & ->). apply IH. }
    destruct (Hd (take DEEP_CHECK (top :: rest)) w) as (w' & ->). by exists w'.
Qed.

End Choice.

Lemma chosen_identifier_is_a_candidates_witness :
  ∃ w', choose_best_candidate Fake.client [Fake.infliximab] "many" 0%nat
        = (Ok (Some "CHEMBL1201581"), w').
Proof.
  destruct (chosen_identifier_is_a_candidates Fake.client [Fake.infliximab] "many" 0%nat)
    as (_ & H); [done | done |].
  apply (H Fake.infliximab). reflexivity.
Defined.

Lemma blank_query_raises_index_error_witness :
  choose_best_candidate Fake.client [Fake.ibuprofen; Fake.aspirin] "  " 0%nat
  = (Raise IndexError, 1%nat).
Proof.
  destruct (blank_query_raises_index_error Fake.client [Fake.ibuprofen; Fake.aspirin]
              "  " Fake.ibuprofen 0%nat) as (H & _); [reflexivity | reflexivity |].
  apply (H Fake.ibuprofen). reflexivity.
Defined.

(** ** More on the rows of a run *)

Section Rows.
Context {World : Type} (cl : Client World).

Lemma loop_body_turn name tb w :
  ∃ ms groups w',
    loop_body cl name tb w
    = (Ok (mk_tables (meta_records tb ++ ms) (target_records tb ++ concat groups)), w')
    ∧ Forall2 row_and_targets ms groups.
Proof.
  destruct (decide (Str.strip name = "")) as [Hb|Hn].
  { exists [], [], w. rewrite loop_body_blank by done. simpl.
    rewrite !app_nil_r. split; [by destruct tb | constructor]. }
  destruct (loop_body_spec cl name tb w Hn) as (candidates & w1 & _ & H).
  unfold row_and_targets.
  destruct candidates as [|c0 cs0].
  { eexists [_], [[]], w1. rewrite H. simpl. rewrite app_nil_r.
    split; [done |]. constructor; [|constructor].
    split; [|constructor]. left. simpl. tauto. }
  destruct H as (chembl_id & w2 & _ & H).
  destruct (truthy chembl_id) eqn:Htruthy; cycle 1.
  { eexists [_], [[]], w2. rewrite H. simpl. rewrite app_nil_r.
    split; [done |]. constructor; [|constructor].
    split; [|constructor]. left. simpl. tauto. }
  destruct H as (smiles & inchi_key & mol_type & w3 & _ & H).
  destruct (is_small mol_type smiles) eqn:Hsmall; cycle 1.
  { eexists [_], [[]], w3. rewrite H. simpl. rewrite app_nil_r.
    split; [done |]. constructor; [|constructor].
    split; [|constructor]. right. right. simpl. tauto. }
  destruct H as (targets & w4 & Htargets & H).
  eexists [_], [_], w4. rewrite H. simpl. rewrite app_nil_r.
  split; [done |]. constructor; [|constructor]. split.
  - right. left. simpl. tauto.
  - apply Forall_forall. intros t (t0 & -> & Hin)%list_elem_of_fmap. simpl.
    split; [done |].
    rewrite fetch_targets_eq in Htargets.
    destruct (mechanism_filter cl chembl_id w3) as [[mechs|e] w5];
      injection Htargets as <- <-.
    + by apply list_elem_of_fmap in Hin as (m0 & -> & _).
    + by apply elem_of_nil in Hin.
Qed.

Lemma for_names_turns names tb w :
  ∃ ms groups w',
    for_names cl names tb w
    = (Ok (mk_tables (meta_records tb ++ ms) (target_records tb ++ concat groups)), w')
    ∧ Forall2 row_and_targets ms groups.
Proof.
  revert tb w. induction names as [|name names IH]; intros tb w.
  - exists [], [], w. simpl. rewrite !app_nil_r. split; [by destruct tb | constructor].
  - destruct (loop_body_turn name tb w) as (ms1 & g1 & w1 & Hb & H1).
    destruct (IH (mk_tables (meta_records tb ++ ms1)
                    (target_records tb ++ concat g1)) w1)
      as (ms2 & g2 & w2 & Hf & H2).
    exists (ms1 ++ ms2)%list, (g1 ++ g2)%list, w2.
    cbn [for_names]. unfold_M. rewrite Hb, Hf. simpl.
    rewrite concat_app, !app_assoc. split; [done | by apply Forall2_app].
Qed.

(** X7. In the metadata of a run, a row of status "no_hit" or
    "no_candidate" has its four data fields null; a row of status "ok" has
    a non-empty identifier, a non-empty SMILES and a molecule type equal to
    "small molecule" up to case; a row of status "non_small_or_no_smiles"
    has a non-empty identifier and misses the type or the SMILES. *)
Theorem metadata_row_shapes (df : gmap string (list (option string)))
    (w : World) (tb : tables) (w' : World) (m : Meta.t) :
  main cl df w = (Ok tb, w') →
  m ∈ meta_records tb →
  ((Meta.status m = "no_hit" ∨ Meta.status m = "no_candidate") →
   Meta.chembl_id m = None ∧ Meta.smiles m = None
   ∧ Meta.inchi_key m = None ∧ Meta.molecule_type m = None)
  ∧ (Meta.status m = "ok" →
     (∃ i, Meta.chembl_id m = Some i ∧ i ≠ "")
     ∧ (∃ s, Meta.smiles m = Some s ∧ s ≠ "")
     ∧ (∃ t, Meta.molecule_type m = Some t ∧ Str.lower t = "small molecule"))
  ∧ (Meta.status m = "non_small_or_no_smiles" →
     (∃ i, Meta.chembl_id m = Some i ∧ i ≠ "")
     ∧ ¬ ((∃ t, Meta.molecule_type m = Some t ∧ Str.lower t = "small molecule")
          ∧ (∃ s, Meta.smiles m = Some s ∧ s ≠ ""))).
Proof.
  intros Hmain Hin. unfold main in Hmain.
  destruct (df !! "Name") as [col|]; [|done].
  destruct (for_names_turns (unique (dropna col)) (mk_tables [] []) w)
    as (ms & groups & w2 & Hf & Hshape).
  rewrite Hf in Hmain. injection Hmain as <- <-. simpl in Hin.
  destruct (proj1 (list_elem_of_lookup _ _) Hin) as [i Hi].
  destruct (Forall2_lookup_l _ _ _ _ _ Hshape Hi) as (g & _ & Hm & _).
  assert (∀ x, truthy x = true → ∃ i, x = Some i ∧ i ≠ "") as Htr.
  { intros [[|a s]|]; try done. intros _. by eexists. }
  destruct Hm as [(Hst & ? & ? & ? & ? & _) | [(Hst & Hid & Hsm) | (Hst & Hid & Hsm & _)]].
  - split; [done |]. split; intros E; rewrite E in Hst; by destruct Hst.
  - split; [intros [E|E]; by rewrite E in Hst |]. split.
    + intros _. apply is_small_spec in Hsm as [? ?]. auto.
    + intros E. by rewrite E in Hst.
  - split; [intros [E|E]; by rewrite E in Hst |]. split.
    + intros E. by rewrite E in Hst.
    + intros _. split; [auto |]. intros Hs%is_small_spec. congruence.
Qed.

(** X8. The target rows of a run come in groups, one group per metadata
    row and in the order of the metadata rows: the group of a row that is
    not "ok" is empty, and every row of a group carries the query name and
    the identifier of its metadata row. *)
Theorem target_rows_follow_metadata (df : gmap string (list (option string)))
    (w : World) (tb : tables) (w' : World) :
  main cl df w = (Ok tb, w') →
  ∃ groups,
    target_records tb = concat groups
    ∧ Forall2 (λ m g,
                 (Meta.status m ≠ "ok" → g = [])
                 ∧ Forall (λ t, Target.query_name t = Some (Meta.query_name m)
                                ∧ Target.molecule_chembl_id t = Meta.chembl_id m) g)
              (meta_records tb) groups.
Proof.
  intros Hmain. unfold main in Hmain.
  destruct (df !! "Name") as [col|]; [|done].
  destruct (for_names_turns (unique (dropna col)) (mk_tables [] []) w)
    as (ms & groups & w2 & Hf & Hshape).
  rewrite Hf in Hmain. injection Hmain as <- <-. simpl.
  exists groups. split; [done |].
  eapply Forall2_impl; [exact Hshape |].
  intros m g [Hm Hg]. split; [|done].
  destruct Hm as [(_ & _ & _ & _ & _ & ?) | [(Hst & _) | (_ & _ & _ & ?)]];
    [done | | done].
  intros Hno. by destruct Hno.
Qed.

End Rows.

Lemma metadata_row_shapes_witness :
  ∃ i, i ≠ "" ∧ Some "CHEMBL521" = Some i.
Proof.
  destruct (metadata_row_shapes Fake.client (Fake.frame [Some "Ibuprofen"]) 0%nat
              (mk_tables
                 [Meta.mk "Ibuprofen" (Some "CHEMBL521")
                    (Some "CC(C)Cc1ccc(C(C)C(=O)O)cc1")
                    (Some "HEFNNWSXXWATRW-UHFFFAOYSA-N") (Some "Small molecule") "ok"]
                 (map (λ t, Target.set_query_name t "Ibuprofen")
                    [target_row (Some "CHEMBL521") Fake.cox1;
                     target_row (Some "CHEMBL521") Fake.cox2]))
              4%nat
              (Meta.mk "Ibuprofen" (Some "CHEMBL521")
                 (Some "CC(C)Cc1ccc(C(C)C(=O)O)cc1")
                 (Some "HEFNNWSXXWATRW-UHFFFAOYSA-N") (Some "Small molecule") "ok"))
    as (_ & Hok & _); [vm_compute; reflexivity | apply list_elem_of_here |].
  destruct (Hok eq_refl) as ((i & Hi & Hne) & _).
  exists i. split; [exact Hne | exact Hi].
Defined.

Lemma target_rows_follow_metadata_witness :
  ∃ groups : list (list Target.t),
    length (concat groups) = 2%nat.
Proof.
  destruct (target_rows_follow_metadata Fake.client (Fake.frame [Some "Ibuprofen"]) 0%nat
              (mk_tables
                 [Meta.mk "Ibuprofen" (Some "CHEMBL521")
                    (Some "CC(C)Cc1ccc(C(C)C(=O)O)cc1")
                    (Some "HEFNNWSXXWATRW-UHFFFAOYSA-N") (Some "Small molecule") "ok"]
                 (map (λ t, Target.set_query_name t "Ibuprofen")
                    [target_row (Some "CHEMBL521") Fake.cox1;
                     target_row (Some "CHEMBL521") Fake.cox2]))
              4%nat) as (groups & Hg & _); [vm_compute; reflexivity |].
  exists groups. rewrite <- Hg. reflexivity.
Defined.

(** ** Names that find nothing, repeated names, and the summary *)

Lemma NoDup_filter_fmap_inj {A B} (f : A → B) (P : B → Prop)
    `{∀ y, Decision (P y)} (l : list A) a b :
  NoDup (filter P (map f l)) →
  a ∈ l → b ∈ l → P (f a) → f a = f b → a = b.
Proof.
  induction l as [|x l IH]; simpl; [by intros _ ?%elem_of_nil |].
  rewrite filter_cons. intros Hnd Ha Hb HP Hf.
  assert (∀ c, c ∈ l → P (f c) → f c ∈ filter P (map f l)) as Hmem.
  { intros c Hc HPc. apply list_elem_of_filter. split; [done |].
    apply list_elem_of_fmap. eauto. }
  destruct (decide (P (f x))) as [HPx | HPx].
  - apply NoDup_cons in Hnd as [Hx Hnd].
    apply elem_of_cons in Ha as [-> | Ha], Hb as [-> | Hb]; [done | | | by apply IH].
    + exfalso. apply Hx. rewrite Hf. apply Hmem; [done |]. by rewrite <- Hf.
    + exfalso. apply Hx. rewrite <- Hf. by apply Hmem.
  - apply elem_of_cons in Ha as [-> | Ha]; [done |].
    apply elem_of_cons in Hb as [-> | Hb]; [by rewrite <- Hf in HPx |].
    by apply IH.
Qed.

Lemma filter_fmap_count_one {A B} `{EqDecision B} (f : A → B) (P : B → Prop)
    `{∀ y, Decision (P y)} (l : list A) a v :
  a ∈ l → f a = v → P v →
  (1 ≤ length (filter (λ y, y = v) (filter P (map f l))))%nat.
Proof.
  intros Ha Hf HP.
  assert (v ∈ filter (λ y, y = v) (filter P (map f l))) as Hin.
  { apply list_elem_of_filter. split; [done |].
    apply list_elem_of_filter. split; [done |].
    apply list_elem_of_fmap. eauto. }
  destruct (filter _ _); [by apply elem_of_nil in Hin | simpl; lia].
Qed.

Lemma filter_fmap_count_two {A B} `{EqDecision B} (f : A → B) (P : B → Prop)
    `{∀ y, Decision (P y)} (l : list A) a b v :
  a ∈ l → b ∈ l → a ≠ b → f a = v → f b = v → P v →
  (2 ≤ length (filter (λ y, y = v) (filter P (map f l))))%nat.
Proof.
  intros Ha Hb Hab Hfa Hfb HP.
  induction l as [|x l IH]; [by apply elem_of_nil in Ha |].
  simpl. rewrite filter_cons.
  apply elem_of_cons in Ha as [<- | Ha], Hb as [<- | Hb]; [done | | |].
  - rewrite Hfa, decide_True, filter_cons, decide_True by done. simpl.
    pose proof (filter_fmap_count_one f P l b v Hb Hfb HP). lia.
  - rewrite Hfb, decide_True, filter_cons, decide_True by done. simpl.
    pose proof (filter_fmap_count_one f P l a v Ha Hfa HP). lia.
  - pose proof (IH Ha Hb) as IH'.
    destruct (decide (P (f x))); [|done].
    rewrite filter_cons. destruct (decide (f x = v)); simpl; lia.
Qed.

Lemma length_filter_fmap {A B} (f : A → B) (P : B → Prop) `{∀ y, Decision (P y)}
    (l : list A) :
  length (filter (λ x, P (f x)) l) = length (filter P (map f l)).
Proof.
  induction l as [|x l IH]; simpl; [done |].
  rewrite !filter_cons. destruct (decide (P (f x))); simpl; by rewrite IH.
Qed.

Section Whole.
Context {World : Type} (cl : Client World).

Lemma find_candidates_nothing name w :
  (∀ name w0 res w1, molecule_filter cl name w0 = (Ok res, w1) → yielded res = []) →
  (∀ name w0 res w1, molecule_search cl name w0 = (Ok res, w1) → yielded res = []) →
  ∃ w', find_candidates cl name w = (Ok [], w').
Proof.
  intros Hf Hs. rewrite find_candidates_eq, pref_name_exact_eq.
  destruct (molecule_filter cl name w) as [[res|e] w1] eqn:E1.
  - rewrite (Hf _ _ _ _ E1). simpl. rewrite limited_text_search_eq.
    destruct (molecule_search cl name w1) as [[res2|e2] w2] eqn:E2; [|eauto].
    rewrite (Hs _ _ _ _ E2). eauto.
  - rewrite limited_text_search_eq.
    destruct (molecule_search cl name w1) as [[res2|e2] w2] eqn:E2; [|eauto].
    rewrite (Hs _ _ _ _ E2). eauto.
Qed.

(** X9. When neither the exact lookup nor the text search yields a record
    (each fails or comes back empty, for every name), the run completes:
    every name that is not blank gets a "no_hit" row with null fields, in
    order, and there is no target row. *)
Theorem nothing_found_gives_no_hit_rows (df : gmap string (list (option string)))
    (col : list (option string)) (w : World) :
  df !! "Name" = Some col →
  (∀ name w0 res w1, molecule_filter cl name w0 = (Ok res, w1) → yielded res = []) →
  (∀ name w0 res w1, molecule_search cl name w0 = (Ok res, w1) → yielded res = []) →
  ∃ w',
    main cl df w
    = (Ok (mk_tables
             (map (λ n, Meta.mk n None None None None "no_hit")
                (filter (λ n, n ≠ "") (map Str.strip (unique (dropna col)))))
             []), w').
Proof.
  intros Hcol Hf Hs. unfold main. rewrite Hcol.
  assert (∀ names tb w0, ∃ w',
             for_names cl names tb w0
             = (Ok (mk_tables
                      (meta_records tb
                       ++ map (λ n, Meta.mk n None None None None "no_hit")
                            (filter (λ n, n ≠ "") (map Str.strip names)))
                      (target_records tb)), w')) as H.
  { induction names as [|name names IH]; intros tb w0.
    - exists w0. simpl. rewrite app_nil_r. by destruct tb.
    - cbn [for_names]. unfold_M. simpl. rewrite filter_cons.
      destruct (decide (Str.strip name ≠ "")) as [Hn | Hb].
      + destruct (loop_body_spec cl name tb w0 Hn) as (cands & w1 & Hfind & Hbody).
        destruct (find_candidates_nothing (Str.strip name) w0 Hf Hs) as (w1' & Hnone).
        rewrite Hfind in Hnone. injection Hnone as -> <-. rewrite Hbody.
        destruct (IH (append_meta tb
                        (Meta.mk (Str.strip name) None None None None "no_hit")) w1)
          as (w' & ->).
        exists w'. simpl. by rewrite <- app_assoc.
      + apply dec_stable in Hb. rewrite loop_body_blank by done. apply IH. }
  destruct (H (unique (dropna col)) (mk_tables [] []) w) as (w' & ->). by exists w'.
Qed.

(** X12. Names are told apart before they are stripped: two cells that
    differ, but are equal and not blank once stripped, each get a metadata
    row, so the [query_name] column holds that stripped name at least
    twice. *)
Theorem padded_duplicates_repeat_query_name
    (df : gmap string (list (option string))) (col : list (option string))
    (w : World) (a b : string) :
  df !! "Name" = Some col →
  Some a ∈ col → Some b ∈ col →
  a ≠ b → Str.strip a = Str.strip b → Str.strip a ≠ "" →
  ∃ tb w',
    main cl df w = (Ok tb, w')
    ∧ Str.strip a ∈ map Meta.query_name (meta_records tb)
    ∧ ¬ NoDup (map Meta.query_name (meta_records tb))
    ∧ (2 ≤ length (filter (λ m, Meta.query_name m = Str.strip a)
                     (meta_records tb)))%nat.
Proof.
  intros Hcol Ha Hb Hab Hstrip Hne.
  destruct (main_returns cl df col w Hcol) as (tb & w' & Hmain & Hq & _).
  exists tb, w'. split; [done |].
  pose proof (length_filter_fmap Meta.query_name (λ n, n = Str.strip a)
                (meta_records tb)) as Hlen.
  simpl in Hlen. rewrite Hlen, Hq. clear Hlen.
  apply elem_of_dropna, elem_of_unique in Ha, Hb. split; [|split].
  - apply list_elem_of_filter. split; [done |]. apply list_elem_of_fmap. eauto.
  - intros Hnd. apply Hab.
    by apply (NoDup_filter_fmap_inj Str.strip (λ n, n ≠ "") (unique (dropna col))).
  - by apply (filter_fmap_count_two Str.strip (λ n, n ≠ "") _ a b).
Qed.

Lemma length_filter_split {A} (P Q : A → Prop) `{∀ x, Decision (P x)}
    `{∀ x, Decision (Q x)} (l : list A) :
  Forall (λ x, P x ↔ ¬ Q x) l →
  (length (filter P l) + length (filter Q l) = length l)%nat.
Proof.
  induction 1 as [|x l Hx Hl IH]; simpl; [done |].
  rewrite !filter_cons.
  destruct (decide (P x)), (decide (Q x)); simpl; try lia; tauto.
Qed.

(** X10. With a [Name] column the two tables are written. The summary
    lines then raise [KeyError] on the column "status" exactly when no name
    of the column is left after dropping nulls and blanks; otherwise they
    report as many metadata rows as there are distinct non-blank names, an
    [ok_count] and a [skipped] count that add up to that number, [skipped]
    being the number of rows of the three other statuses, and no target
    row when [ok_count] is 0. *)
Theorem summary_of_run (df : gmap string (list (option string)))
    (col : list (option string)) (w : World) :
  df !! "Name" = Some col →
  ∃ tb w',
    script cl df w = (Ok (tb, report tb), w')
    ∧ (report tb = inl (KeyError "status")
       ↔ Forall (λ x, Str.strip x = "") (dropna col))
    ∧ (∀ s, report tb = inr s →
         meta_rows s
         = Z.of_nat (length (filter (λ n, n ≠ "")
                               (map Str.strip (unique (dropna col)))))
         ∧ ok_count s + skipped s = meta_rows s
         ∧ 0 ≤ ok_count s
         ∧ skipped s
           = Z.of_nat (length (filter (λ m, Meta.status m = "no_hit"
                                            ∨ Meta.status m = "no_candidate"
                                            ∨ Meta.status m = "non_small_or_no_smiles")
                                 (meta_records tb)))
         ∧ target_rows s = Z.of_nat (length (target_records tb))
         ∧ (ok_count s = 0 → target_records tb = [])).
Proof.
  intros Hcol.
  destruct (main_returns cl df col w Hcol) as (tb & w' & Hmain & Hq & Hst & Ht).
  exists tb, w'. split; [unfold script; unfold_M; by rewrite Hmain |]. split.
  - assert (meta_records tb = []
            ↔ filter (λ n, n ≠ "") (map Str.strip (unique (dropna col))) = []) as Hnil.
    { rewrite <- Hq. by destruct (meta_records tb). }
    assert (report tb = inl (KeyError "status") ↔ meta_records tb = []) as ->.
    { unfold report. by destruct (meta_records tb). }
    rewrite Hnil. split.
    + intros Hf. apply Forall_forall. intros x Hx%elem_of_unique.
      destruct (decide (Str.strip x = "")) as [|Hn]; [done |]. exfalso.
      assert (Str.strip x ∈ filter (λ n, n ≠ "") (map Str.strip (unique (dropna col))))
        as Hin.
      { apply list_elem_of_filter. split; [done |]. apply list_elem_of_fmap. eauto. }
      rewrite Hf in Hin. by apply elem_of_nil in Hin.
    + intros Hall.
      destruct (filter _ _) as [|n l] eqn:E; [done |]. exfalso.
      assert (n ∈ filter (λ n, n ≠ "") (map Str.strip (unique (dropna col)))) as Hin.
      { rewrite E. left. }
      apply list_elem_of_filter in Hin as [Hn (x & -> & Hx)%list_elem_of_fmap].
      rewrite elem_of_unique in Hx.
      eapply Forall_forall in Hall; [|exact Hx]. done.
  - intros s Hs.
    assert (s = mk_summary
                  (Z.of_nat (length (filter (λ m, Meta.status m = "ok")
                                       (meta_records tb))))
                  (Z.of_nat (length (meta_records tb))
                   - Z.of_nat (length (filter (λ m, Meta.status m = "ok")
                                         (meta_records tb))))
                  (Z.of_nat (length (meta_records tb)))
                  (Z.of_nat (length (target_records tb)))) as ->.
    { unfold report in Hs. destruct (meta_records tb); [done |]. by injection Hs. }
    clear Hs. cbn [ok_count skipped meta_rows target_rows].
    pose proof (length_filter_split
                  (λ m, Meta.status m = "ok")
                  (λ m, Meta.status m = "no_hit" ∨ Meta.status m = "no_candidate"
                        ∨ Meta.status m = "non_small_or_no_smiles")
                  (meta_records tb)) as Hsplit.
    assert ((length (filter (λ m, Meta.status m = "ok") (meta_records tb))
             + length (filter (λ m, Meta.status m = "no_hit"
                                    ∨ Meta.status m = "no_candidate"
                                    ∨ Meta.status m = "non_small_or_no_smiles")
                         (meta_records tb)))%nat
            = length (meta_records tb)) as Hsum.
    { apply Hsplit. eapply Forall_impl; [exact Hst |]. simpl. intros m Hm.
      unfold statuses in Hm. rewrite !elem_of_cons, elem_of_nil in Hm.
      destruct Hm as [E | [E | [E | [E | []]]]]; rewrite E;
        (split;
         [intros H1 H2;
          (discriminate H1 || (destruct H2 as [H2 | [H2 | H2]]; discriminate H2))
         | intros H; (reflexivity || (exfalso; apply H; auto))]). }
    split; [by rewrite <- Hq, length_map |]. split; [lia |]. split; [lia |].
    split; [lia |]. split; [done |].
    intros H0.
    destruct (target_records tb) as [|t ts] eqn:Et; [done |]. exfalso.
    apply Forall_cons in Ht as [(m & Hin & _ & Hok & _) _].
    assert (m ∈ filter (λ m, Meta.status m = "ok") (meta_records tb)) as Hf.
    { by apply list_elem_of_filter. }
    destruct (filter _ (meta_records tb)); [by apply elem_of_nil in Hf | simpl in H0; lia].
Qed.

End Whole.

Lemma nothing_found_gives_no_hit_rows_witness :
  ∃ w', main Fake.down (Fake.frame [Some " Aspirin"; None; Some "Ibuprofen"]) 0%nat
        = (Ok (mk_tables
                 [Meta.mk "Aspirin" None None None None "no_hit";
                  Meta.mk "Ibuprofen" None None None None "no_hit"] []), w').
Proof.
  destruct (nothing_found_gives_no_hit_rows Fake.down
              (Fake.frame [Some " Aspirin"; None; Some "Ibuprofen"])
              [Some " Aspirin"; None; Some "Ibuprofen"] 0%nat) as (w' & H);
    [reflexivity | by intros ? ? ? ? [=] | by intros ? ? ? ? [=] |].
  exists w'. exact H.
Defined.

Lemma padded_duplicates_repeat_query_name_witness :
  ∃ tb w',
    main Fake.client (Fake.frame [Some "Ibuprofen"; Some " Ibuprofen"]) 0%nat
    = (Ok tb, w')
    ∧ ¬ NoDup (map Meta.query_name (meta_records tb)).
Proof.
  destruct (padded_duplicates_repeat_query_name Fake.client
              (Fake.frame [Some "Ibuprofen"; Some " Ibuprofen"])
              [Some "Ibuprofen"; Some " Ibuprofen"] 0%nat "Ibuprofen" " Ibuprofen")
    as (tb & w' & H1 & _ & H2 & _);
    [reflexivity | apply list_elem_of_here
     | apply list_elem_of_further, list_elem_of_here
     | discriminate | reflexivity | discriminate |].
  exists tb, w'. split; [exact H1 | exact H2].
Defined.

Lemma summary_of_run_witness :
  ∃ tb w',
    script Fake.client (Fake.frame [Some "  "; None]) 0%nat = (Ok (tb, report tb), w')
    ∧ report tb = inl (KeyError "status").
Proof.
  destruct (summary_of_run Fake.client (Fake.frame [Some "  "; None])
              [Some "  "; None] 0%nat) as (tb & w' & H1 & H2 & _); [reflexivity |].
  exists tb, w'. split; [exact H1 |]. apply H2.
  repeat constructor.
Defined.

(** ** The number of requests *)

Section Requests.
Context {World : Type} (cl : Client World).

Lemma count_pref_name_exact name w n :
  ∃ r w', pref_name_exact (counting cl) name (w, n) = (Ok r, (w', S n)).
Proof.
  rewrite pref_name_exact_eq. cbn [counting molecule_filter]. unfold counted. simpl.
  destruct (molecule_filter cl name w) as [[res|e] w']; simpl; eauto.
Qed.

Lemma count_limited_text_search name w n :
  ∃ r w', limited_text_search (counting cl) name (w, n) = (Ok r, (w', S n)).
Proof.
  rewrite limited_text_search_eq. cbn [counting molecule_search]. unfold counted. simpl.
  destruct (molecule_search cl name w) as [[res|e] w']; simpl; eauto.
Qed.

Lemma count_fetch_molecule_data chembl_id w n :
  ∃ r w', fetch_molecule_data (counting cl) chembl_id (w, n) = (Ok r, (w', S n)).
Proof.
  rewrite fetch_molecule_data_eq. cbn [counting molecule_get]. unfold counted. simpl.
  destruct (molecule_get cl chembl_id w) as [[mol|e] w']; simpl; eauto.
Qed.

Lemma count_fetch_targets chembl_id w n :
  ∃ r w', fetch_targets (counting cl) chembl_id (w, n) = (Ok r, (w', S n)).
Proof.
  rewrite fetch_targets_eq. cbn [counting mechanism_filter]. unfold counted. simpl.
  destruct (mechanism_filter cl chembl_id w) as [[mechs|e] w']; simpl; eauto.
Qed.

Lemma count_find_candidates name w n :
  ∃ candidates w' n',
    find_candidates (counting cl) name (w, n) = (Ok candidates, (w', n'))
    ∧ ((n' = S n ∧ candidates ≠ []) ∨ n' = S (S n)).
Proof.
  rewrite find_candidates_eq.
  destruct (count_pref_name_exact name w n) as ([c|] & w1 & ->).
  - destruct (dict_truthy c).
    + exists [c], w1, (S n). split; [done |]. by left.
    + destruct (count_limited_text_search name w1 (S n)) as (r & w2 & ->).
      exists r, w2, (S (S n)). split; [done |]. by right.
  - destruct (count_limited_text_search name w1 (S n)) as (r & w2 & ->).
    exists r, w2, (S (S n)). split; [done |]. by right.
Qed.

Lemma count_deep_check (cs : list molecule) query_name w n :
  ∃ r w' n',
    deep_check (counting cl) cs query_name (w, n) = (r, (w', n'))
    ∧ (n ≤ n')%nat ∧ (n' ≤ n + length cs)%nat
    ∧ (cs ≠ [] → (S n ≤ n')%nat).
Proof.
  revert w n. induction cs as [|c cs IH]; intros w n.
  - exists (Ok None), w, n. simpl. split; [done |]. repeat split; (lia || done).
  - cbn [deep_check]. unfold_M. cbn [counting molecule_get]. unfold counted. simpl.
    destruct (molecule_get cl (molecule_chembl_id c) w) as [[full|e] w1]; simpl.
    + destruct (Str.split_first _).
      * destruct (_ || _).
        -- eexists _, w1, (S n). split; [done |]. repeat split; lia.
        -- destruct (IH w1 (S n)) as (r & w' & n' & -> & ? & ? & _).
           exists r, w', n'. split; [done |]. repeat split; lia.
      * eexists _, w1, (S n). split; [done |]. repeat split; lia.
    + destruct (IH w1 (S n)) as (r & w' & n' & -> & ? & ? & _).
      exists r, w', n'. split; [done |]. repeat split; lia.
Qed.

Lemma count_choose_best_candidate (candidates : list molecule) query_name w n :
  candidates ≠ [] →
  ∃ r w' n',
    choose_best_candidate (counting cl) candidates query_name (w, n) = (r, (w', n'))
    ∧ (S n ≤ n')%nat ∧ (n' ≤ n + DEEP_CHECK)%nat.
Proof.
  intros Hne.
  destruct (ranked_nonempty query_name candidates Hne) as (top & rest & Hranked).
  unfold choose_best_candidate. destruct candidates as [|c0 cs0]; [done |].
  rewrite Hranked. unfold_M.
  destruct (count_deep_check (take DEEP_CHECK (top :: rest)) query_name w n)
    as (r & w' & n' & -> & Hlo & Hhi & Hne').
  rewrite length_take in Hhi.
  assert (S n ≤ n')%nat by (by apply Hne').
  destruct r as [[chembl_id|]|e]; eexists _, w', n'; (split; [done |]); lia.
Qed.

Lemma count_loop_body name tb w n :
  ∃ tb' w' n',
    loop_body (counting cl) name tb (w, n) = (Ok tb', (w', n'))
    ∧ if decide (Str.strip name = "") then n' = n
      else (n + 2 ≤ n')%nat ∧ (n' ≤ n + 7)%nat.
Proof.
  destruct (decide (Str.strip name = "")) as [Hb|Hn].
  { exists tb, w, n. by rewrite loop_body_blank. }
  destruct (loop_body_spec (counting cl) name tb (w, n) Hn)
    as (candidates & [w1 n1] & Hfind & H).
  destruct (count_find_candidates (Str.strip name) w n)
    as (candidates' & w1' & n1' & Hfind' & Hn1).
  rewrite Hfind in Hfind'. injection Hfind' as <- <- <-.
  destruct candidates as [|c0 cs0].
  { eexists _, w1, n1. split; [exact H |]. destruct Hn1 as [[_ ?] | ->]; [done | lia]. }
  assert (S n ≤ n1 ∧ n1 ≤ S (S n))%nat as Hn1' by (destruct Hn1 as [[-> _] | ->]; lia).
  clear Hn1. destruct H as (chembl_id & [w2 n2] & Hchoose & H).
  destruct (count_choose_best_candidate (c0 :: cs0) (Str.strip name) w1 n1)
    as (r & w2' & n2' & Hchoose' & Hlo & Hhi); [done |].
  rewrite Hchoose in Hchoose'. injection Hchoose' as <- <- <-.
  unfold DEEP_CHECK in Hhi.
  destruct (truthy chembl_id).
  2: { eexists _, w2, n2. split; [exact H |]. lia. }
  destruct H as (smiles & inchi_key & mol_type & [w3 n3] & Hfetch & H).
  destruct (count_fetch_molecule_data chembl_id w2 n2) as (r & w3' & Hfetch').
  rewrite Hfetch in Hfetch'. injection Hfetch' as <- <- ->.
  destruct (is_small mol_type smiles).
  2: { eexists _, w3, (S n2). split; [exact H |]. lia. }
  destruct H as (targets & [w4 n4] & Htargets & H).
  destruct (count_fetch_targets chembl_id w3 (S n2)) as (r & w4' & Htargets').
  rewrite Htargets in Htargets'. injection Htargets' as <- <- ->.
  eexists _, w4, (S (S n2)). split; [exact H |]. lia.
Qed.

Lemma count_for_names names tb w n :
  ∃ tb' w' n',
    for_names (counting cl) names tb (w, n) = (Ok tb', (w', n'))
    ∧ (n + 2 * length (filter (λ x, x ≠ "") (map Str.strip names)) ≤ n')%nat
    ∧ (n' ≤ n + 7 * length (filter (λ x, x ≠ "") (map Str.strip names)))%nat.
Proof.
  revert tb w n. induction names as [|name names IH]; intros tb w n.
  - exists tb, w, n. simpl. split; [done |]. lia.
  - cbn [for_names]. unfold_M.
    destruct (count_loop_body name tb w n) as (tb1 & w1 & n1 & -> & H1).
    destruct (IH tb1 w1 n1) as (tb2 & w2 & n2 & -> & Hlo & Hhi).
    exists tb2, w2, n2. split; [done |]. simpl. rewrite filter_cons.
    destruct (decide (Str.strip name = "")) as [Hb|Hn].
    + rewrite decide_False by (by intros ?). subst n1. lia.
    + rewrite decide_True by done. simpl. lia.
Qed.

Lemma counting_same_responses :
  same_responses (λ (w : World) (wn : World * nat), wn.1 = w) cl (counting cl).
Proof.
  repeat split; destruct w2 as [w2 n]; simpl in *; by subst.
Qed.

(** X6. A run makes at least 2 and at most 7 requests for every distinct
    name that is not blank, and none for a blank one: with every request to
    the service counted, the count after the run lies between twice and
    seven times the number of metadata rows. Counting changes no row. *)
Theorem requests_per_name (df : gmap string (list (option string)))
    (col : list (option string)) (w : World) (n : nat) :
  df !! "Name" = Some col →
  ∃ tb w' n',
    main (counting cl) df (w, n) = (Ok tb, (w', n'))
    ∧ (main cl df w).1 = Ok tb
    ∧ (n + 2 * length (meta_records tb) ≤ n')%nat
    ∧ (n' ≤ n + 7 * length (meta_records tb))%nat.
Proof.
  intros Hcol.
  destruct (main_returns (counting cl) df col (w, n) Hcol)
    as (tb & [w' n'] & Hmain & Hq & _).
  exists tb, w', n'. split; [done |].
  split.
  { destruct (alike_main _ cl (counting cl) counting_same_responses df w (w, n) eq_refl)
      as [E _]. by rewrite E, Hmain. }
  apply (f_equal length) in Hq. rewrite length_map in Hq. rewrite Hq.
  unfold main in Hmain. rewrite Hcol in Hmain.
  destruct (count_for_names (unique (dropna col)) (mk_tables [] []) w n)
    as (tb2 & w2 & n2 & Hf & Hlo & Hhi).
  rewrite Hf in Hmain. injection Hmain as <- <- <-. done.
Qed.

End Requests.

Lemma requests_per_name_witness :
  ∃ tb w' n',
    main (counting Fake.client) (Fake.frame [Some "Ibuprofen"; Some "unknown"])
      (0%nat, 0%nat) = (Ok tb, (w', n'))
    ∧ (n' ≤ 14)%nat.
Proof.
  destruct (requests_per_name Fake.client (Fake.frame [Some "Ibuprofen"; Some "unknown"])
              [Some "Ibuprofen"; Some "unknown"] 0%nat 0%nat)
    as (tb & w' & n' & H1 & H2 & _ & H3); [reflexivity |].
  exists tb, w', n'. split; [exact H1 |].
  assert (length (meta_records tb) = 2%nat) as Hlen.
  { vm_compute in H2. injection H2 as <-. reflexivity. }
  rewrite Hlen in H3. exact H3.
Defined.

(** ** An exact hit decides the identifier *)

Section ExactHit.
Context {World : Type} (cl : Client World).

Lemma choose_best_candidate_single c query_name w :
  normalize query_name ≠ "" →
  ∃ w', choose_best_candidate cl [c] query_name w = (Ok (molecule_chembl_id c), w').
Proof.
  intros Hq. destruct (normalize_split_first _ Hq) as [q1 Hq1].
  unfold choose_best_candidate. cbn [sorted_reverse insert_desc take DEEP_CHECK firstn].
  cbn [deep_check]. unfold_M. rewrite Hq1.
  destruct (molecule_get cl (molecule_chembl_id c) w) as [[full|e] w1]; [|eauto].
  destruct (_ || _); eauto.
Qed.

(** X13. When the exact lookup returns a record with at least one key for
    a name that is not blank, the turn records the identifier of that
    record: the row has that identifier and status "ok" or
    "non_small_or_no_smiles" if the identifier is usable, and is the
    "no_candidate" row otherwise. Neither the text search nor the deep
    check can put another identifier in its place. *)
Theorem exact_hit_decides_identifier (name : string) (tb : tables) (w : World)
    (c : molecule) (w1 : World) :
  Str.strip name ≠ "" →
  pref_name_exact cl (Str.strip name) w = (Ok (Some c), w1) →
  dict_truthy c = true →
  ∃ m tb' w',
    loop_body cl name tb w = (Ok tb', w')
    ∧ meta_records tb' = (meta_records tb ++ [m])%list
    ∧ Meta.query_name m = Str.strip name
    ∧ (truthy (molecule_chembl_id c) = true →
       Meta.chembl_id m = molecule_chembl_id c
       ∧ (Meta.status m = "ok" ∨ Meta.status m = "non_small_or_no_smiles"))
    ∧ (truthy (molecule_chembl_id c) = false →
       m = Meta.mk (Str.strip name) None None None None "no_candidate"
       ∧ target_records tb' = target_records tb).
Proof.
  intros Hn Hexact Hkeys.
  destruct (loop_body_spec cl name tb w Hn) as (candidates & w1' & Hfind & H).
  rewrite find_candidates_eq, Hexact, Hkeys in Hfind. injection Hfind as <- <-.
  destruct H as (chembl_id & w2 & Hchoose & H).
  destruct (choose_best_candidate_single c (Str.strip name) w1) as (w2' & Hsingle);
    [by apply normalize_nonempty |].
  rewrite Hsingle in Hchoose. injection Hchoose as <- <-.
  destruct (truthy (molecule_chembl_id c)) eqn:Htruthy.
  - destruct H as (smiles & inchi_key & mol_type & w3 & _ & H).
    destruct (is_small mol_type smiles).
    + destruct H as (targets & w4 & _ & H).
      eexists _, _, w4. split; [exact H |]. simpl. repeat split; try done. by left.
    + eexists _, _, w3. split; [exact H |]. simpl. repeat split; try done. by right.
  - eexists _, _, w2'. split; [exact H |]. simpl. repeat split; done.
Qed.

End ExactHit.

Lemma exact_hit_decides_identifier_witness :
  ∃ m tb' w',
    loop_body Fake.client "Infliximab" (mk_tables [] []) 0%nat = (Ok tb', w')
    ∧ meta_records tb' = [m]
    ∧ Meta.chembl_id m = Some "CHEMBL1201581".
Proof.
  destruct (exact_hit_decides_identifier Fake.client "Infliximab" (mk_tables [] [])
              0%nat Fake.infliximab 1%nat)
    as (m & tb' & w' & H1 & H2 & _ & H3 & _);
    [discriminate | reflexivity | reflexivity |].
  exists m, tb', w'. split; [exact H1 |]. split; [exact H2 |].
  apply H3. reflexivity.
Defined.
